(** * soopervisor: exporting a task graph to AWS Batch and to Airflow

    A shallow embedding of [soopervisor/aws/batch.py] and
    [soopervisor/airflow/export.py].

    - Python dictionaries that are iterated ([tasks], a DAG) are association
      lists in insertion order; a dictionary has each key once, which is the
      [NoDup (map fst _)] side condition of the statements that need it.
    - Dictionaries that are only indexed ([job_ids], [out['taskids']]) are
      [gmap]s; [d[k]] on a missing key raises [KeyError k].
    - Exceptions are an explicit [result] type; the remote services (the AWS
      Batch client, [docker.build], the file system) are parameters. *)

From Stdlib Require Import String Ascii List ZArith Lia.
From stdpp Require Import base option list gmap strings fin_maps.

Open Scope string_scope.
Open Scope list_scope.

Set Warnings "-clear-no-such-hyp".

(** ** Python values and strings *)

Module Py.

(** The values that reach a command line or a JSON document here. *)
Inductive pyval :=
| PyNone
| PyBool (b : bool)
| PyInt (z : Z)
| PyStr (s : string).

(** [bool(v)] *)
Definition truthy (v : pyval) : bool :=
  match v with
  | PyNone => false
  | PyBool b => b
  | PyInt z => negb (z =? 0)%Z
  | PyStr s => negb (String.eqb s "")
  end.

Definition quote : ascii := "039"%char.
Definition dquote : ascii := "034"%char.
Definition backslash : ascii := "092"%char.
Definition newline : ascii := "010"%char.

Definition str1 (c : ascii) : string := String c EmptyString.

Fixpoint mem_char (c : ascii) (s : string) : bool :=
  match s with
  | EmptyString => false
  | String d r => if Ascii.eqb c d then true else mem_char c r
  end.

Definition hex_digit (n : nat) : ascii :=
  match n with
  | 0 => "0" | 1 => "1" | 2 => "2" | 3 => "3" | 4 => "4" | 5 => "5"
  | 6 => "6" | 7 => "7" | 8 => "8" | 9 => "9" | 10 => "a" | 11 => "b"
  | 12 => "c" | 13 => "d" | 14 => "e" | _ => "f"
  end%char.

(** One character of [repr(s)] for the quote character [q] chosen. This is
    Python's [repr] on ASCII text ([is_ascii] below). Bytes above 127 are
    kept, which is right for printable characters only. *)
Definition repr_char (q c : ascii) : string :=
  let n := nat_of_ascii c in
  if Ascii.eqb c q || Ascii.eqb c backslash then String backslash (str1 c)
  else if Nat.eqb n 9 then String backslash "t"
  else if Nat.eqb n 10 then String backslash "n"
  else if Nat.eqb n 13 then String backslash "r"
  else if Nat.ltb n 32 || Nat.eqb n 127 then
    String backslash
      (String "x" (String (hex_digit (n / 16)) (str1 (hex_digit (n mod 16)))))
  else str1 c.

Fixpoint repr_body (q : ascii) (s : string) : string :=
  match s with
  | EmptyString => EmptyString
  | String c r => repr_char q c +:+ repr_body q r
  end.

(** [repr(s)], what [{s!r}] puts in an f-string: single quotes, unless the
    text has a single quote and no double quote. *)
Definition repr (s : string) : string :=
  let q := if mem_char quote s && negb (mem_char dquote s)
           then dquote else quote in
  str1 q +:+ repr_body q s +:+ str1 q.

(** [sep.join(l)] *)
Fixpoint join (sep : string) (l : list string) : string :=
  match l with
  | [] => ""
  | [x] => x
  | x :: r => x +:+ sep +:+ join sep r
  end.

(** [s.startswith(p)] *)
Definition startswith (s p : string) : bool := String.prefix p s.

(** [needle in haystack] on strings *)
Fixpoint contains (haystack needle : string) : bool :=
  if String.prefix needle haystack then true
  else match haystack with
       | EmptyString => false
       | String _ r => contains r needle
       end.

Inductive exn :=
| KeyError (key : string)
| IndexError
| ValueError (msg : string)
| CommanderStop (msg : string)
| ClientError (msg : string)
| AirflowException (msg : string).

Inductive result (A : Type) :=
| Ok (a : A)
| Raise (e : exn).
Arguments Ok {A} a.
Arguments Raise {A} e.

#[global] Instance result_bind : MBind result := fun A B k r =>
  match r with
  | Ok a => k a
  | Raise e => Raise e
  end.

(** [d[k]] for a dictionary that is only indexed. *)
Definition getitem {V} (d : gmap string V) (k : string) : result V :=
  match d !! k with
  | Some v => Ok v
  | None => Raise (KeyError k)
  end.

(** Whether [s] is ASCII text, on which [repr] above is Python's. *)
Fixpoint is_ascii (s : string) : bool :=
  match s with
  | EmptyString => true
  | String c r => Nat.ltb (nat_of_ascii c) 128 && is_ascii r
  end.

End Py.

Import Py.

(** ** [soopervisor/aws/batch.py] *)

Module Batch.

(** [tasks]: task name to the names of its upstream tasks. *)
Definition Tasks := list (string * list string).

(** What [pkg.runs_update] returned when it is truthy: [out['taskids']]
    and [out['metadata']['github_number']], both keys being there. *)
Record RunsUpdate := {
  taskids : gmap string pyval;
  github_number : pyval
}.

(** The keyword arguments of one [client.submit_job] call;
    [dependsOn] lists the [jobId] of each entry. *)
Record JobRequest := {
  jobName : string;
  jobQueue : string;
  jobDefinition : string;
  dependsOn : list string;
  command : list pyval
}.

(** [client.submit_job] either raises or answers with a [jobId]. *)
Inductive Response :=
| Failed (err : string)
| JobId (id : string).

Inductive CmdrLine :=
| Info (msg : string)
| Print (msg : string)
| Success (msg : string).

(** The state of the loop of [submit_dag]: the local dictionary [job_ids],
    the calls made to the Batch client with their answers, and what was
    written through [cmdr]. *)
Record LoopState := {
  job_ids : gmap string string;
  calls : list (JobRequest * Response);
  cmdr : list CmdrLine
}.

(** One run: the state it stopped in and the exception it raised, if any. *)
Record Run := {
  final : LoopState;
  raised : option exn
}.


Definition submitted_msg (name : string) : string :=
  "Submitted task " +:+ repr name +:+ "...".

Section submit_dag.

(** The Batch service: its answer to a request, given the requests it
    received before. *)
Variable submit_job : list JobRequest -> JobRequest -> Response.
(** [jd['jobDefinitionArn']], from [client.register_job_definition]. *)
Variable jobDefinitionArn : string.
(** [pkg.runs_update(params['runid'], tasks)]; [None] when falsy. *)
Variable out : option RunsUpdate.

Variable args : list pyval.
Variable job_queue : string.

(** Lines 132-151. *)
Definition ploomber_task (name : string) : result (list pyval) :=
  match out with
  | Some o =>
      tid ← getitem (taskids o) name;
      let ploomber_task :=
        [PyStr "python"; PyStr "-m"; PyStr "ploomber.cli.task";
         PyStr name; PyStr "--task-id"; tid] in
      if truthy (github_number o)
      then Ok (ploomber_task ++
               (ploomber_task ++
                [PyStr "--github-number"; github_number o]))
      else Ok ploomber_task
  | None => Ok [PyStr "ploomber"; PyStr "task"; PyStr name]
  end.

(** [[{"jobId": job_ids[name]} for name in upstream]]; the [name] of the
    comprehension is its own and leaves the [name] of the loop alone. *)
Fixpoint depends_on (ids : gmap string string) (upstream : list string)
  : result (list string) :=
  match upstream with
  | [] => Ok []
  | u :: rest =>
      j ← getitem ids u;
      js ← depends_on ids rest;
      Ok (j :: js)
  end.

(** The arguments of the call at lines 153-160. *)
Definition request (name : string) (deps : list string)
    (task_cmd : list pyval) : JobRequest :=
  {| jobName := name;
     jobQueue := job_queue;
     jobDefinition := jobDefinitionArn;
     dependsOn := deps;
     command := task_cmd ++ args |}.

(** The body of the [for] loop, lines 131-164. *)
Definition body (st : LoopState) (item : string * list string) : Run :=
  let '(name, upstream) := item in
  match ploomber_task name with
  | Raise e => {| final := st; raised := Some e |}
  | Ok task_cmd =>
      match depends_on (job_ids st) upstream with
      | Raise e => {| final := st; raised := Some e |}
      | Ok deps =>
          let req := request name deps task_cmd in
          match submit_job (map fst (calls st)) req with
          | Failed err =>
              {| final := {| job_ids := job_ids st;
                             calls := calls st ++ [(req, Failed err)];
                             cmdr := cmdr st |};
                 raised := Some (ClientError err) |}
          | JobId id =>
              {| final := {| job_ids := <[name := id]> (job_ids st);
                             calls := calls st ++ [(req, JobId id)];
                             cmdr := cmdr st ++
                                     [Print (submitted_msg name)] |};
                 raised := None |}
          end
      end
  end.

(** [for name, upstream in tasks.items(): ...] *)
Fixpoint loop (items : Tasks) (st : LoopState) : Run :=
  match items with
  | [] => {| final := st; raised := None |}
  | item :: rest =>
      let r := body st item in
      match raised r with
      | None => loop rest (final r)
      | Some _ => r
      end
  end.

(** The state in which the loop starts when lines 112-128 have gone
    through without an exception; [cmdr0] is what [cmdr] had written before
    the call, to which lines 115 and 123 have added. *)
Definition init (job_def : string) (cmdr0 : list CmdrLine) : LoopState :=
  {| job_ids := ∅;
     calls := [];
     cmdr := cmdr0 ++
             [Info ("Registering " +:+ repr job_def +:+
                    " job definition...");
              Info "Submitting jobs..."] |}.

(** [submit_dag] from there on: [jobDefinitionArn] and [out] are what
    lines 116 and 128 obtained for these tasks. [AWSBatch.submit_dag] below
    has those lines as well. *)
Definition submit_dag (tasks : Tasks) (job_def : string)
    (cmdr0 : list CmdrLine) : Run :=
  loop tasks (init job_def cmdr0).

(** The states the loop goes through, one per iteration entered, the
    last one being the state it stops in. *)
Fixpoint loop_trace (items : Tasks) (st : LoopState) : list LoopState :=
  match items with
  | [] => [st]
  | item :: rest =>
      let r := body st item in
      match raised r with
      | None => st :: loop_trace rest (final r)
      | Some _ => [st; final r]
      end
  end.

(** Every id in [job_ids] is the answer to an earlier request for the task
    it is filed under. *)
Definition ids_answered (st : LoopState) : Prop :=
  forall u id, job_ids st !! u = Some id ->
    exists req, In (req, JobId id) (calls st) /\ jobName req = u.

(** The three ways an iteration ends. *)
Inductive body_outcome (st : LoopState) (name : string)
    (upstream : list string) : Run -> Prop :=
| body_key_error k :
    (k = name \/ (In k upstream /\ job_ids st !! k = None)) ->
    body_outcome st name upstream
      {| final := st; raised := Some (KeyError k) |}
| body_failed task_cmd deps err :
    ploomber_task name = Ok task_cmd ->
    depends_on (job_ids st) upstream = Ok deps ->
    submit_job (map fst (calls st)) (request name deps task_cmd)
      = Failed err ->
    body_outcome st name upstream
      {| final := {| job_ids := job_ids st;
                     calls := calls st ++
                              [(request name deps task_cmd, Failed err)];
                     cmdr := cmdr st |};
         raised := Some (ClientError err) |}
| body_submitted task_cmd deps id :
    ploomber_task name = Ok task_cmd ->
    depends_on (job_ids st) upstream = Ok deps ->
    submit_job (map fst (calls st)) (request name deps task_cmd)
      = JobId id ->
    body_outcome st name upstream
      {| final := {| job_ids := <[name := id]> (job_ids st);
                     calls := calls st ++
                              [(request name deps task_cmd, JobId id)];
                     cmdr := cmdr st ++ [Print (submitted_msg name)] |};
         raised := None |}.

End submit_dag.

(** The specification's [SubmissionRecord] of a task: its name, the id the
    backend answered with, and the ids it was made to depend on. *)
Record SubmissionRecord := {
  node_name : string;
  backend_job_id : string;
  dependency_ids : list string
}.

(** The records of the calls that were answered with an id. *)
Definition records (st : LoopState) : list SubmissionRecord :=
  flat_map (fun c : JobRequest * Response =>
              match c.2 with
              | JobId id => [{| node_name := jobName c.1;
                                backend_job_id := id;
                                dependency_ids := dependsOn c.1 |}]
              | Failed _ => []
              end)
           (calls st).

(** The tokens that run one task through [ploomber.cli.task]. *)
Definition invocation (name : string) (task_id : pyval) : list pyval :=
  [PyStr "python"; PyStr "-m"; PyStr "ploomber.cli.task"; PyStr name;
   PyStr "--task-id"; task_id].

(** The names the backend was asked to run, in order. *)
Definition requested (st : LoopState) : list string :=
  map (fun c : JobRequest * Response => jobName c.1) (calls st).

(** Modelled from the spec: [commons.load_tasks], which builds [tasks] from
    the pipeline, is not among the sources. Section 4.1: [restrict(subset)]
    gives "a new graph containing only nodes in [subset], with each
    retained node's [upstream] intersected with [subset]". *)
Definition restrict (graph : Tasks) (subset : gset string) : Tasks :=
  map (fun item : string * list string =>
         (item.1, filter (fun u => u ∈ subset) item.2))
      (filter (fun item : string * list string => item.1 ∈ subset) graph).



(** The [(name, id)] pairs of the answered calls. *)
Definition answered (st : LoopState) : list (string * string) :=
  map (fun r => (node_name r, backend_job_id r)) (records st).

End Batch.

(** ** [soopervisor/aws/batch.py]: [submit_dag] and [_export] in full

    [Batch.submit_dag] above is the run from the point where lines 112-128
    have gone through, with what they obtained. Here are those lines too,
    and [_export] around them. *)

Module AWSBatch.

Import Batch.

(** What the outside answers to [submit_dag]. An exception that has no
    constructor of its own in [exn] stands as [ClientError] with its text.
    - [boto3_client]: the exception [boto3.client('batch', ...)] or the
      assignment to [container_properties['image']] raises, if any
      (lines 112-113);
    - [client_register_job_definition]: the [jobDefinitionArn] of the
      answer, which the Batch API puts in every answer, or the exception
      (line 116);
    - [read_ploomber_cloud]: the [runid] in [../.ploomber-cloud], or the
      exception of the read, of [json.loads] or of [params['runid']]
      (lines 126 and 128);
    - [pkg_runs_update]: [pkg.runs_update(runid, tasks)], where [None]
      stands for any falsy answer (line 128);
    - [client_submit_job]: the answer to a job, given the jobs sent
      before (line 153). *)
Record External := {
  boto3_client : option exn;
  client_register_job_definition : result string;
  read_ploomber_cloud : result string;
  pkg_runs_update : string -> Tasks -> result (option RunsUpdate);
  client_submit_job : list JobRequest -> JobRequest -> Response
}.

(** A run that an exception of lines 112-128 ends: nothing was sent. *)
Definition stopped (written : list CmdrLine) (e : exn) : Run :=
  {| final := {| job_ids := ∅; calls := []; cmdr := written |};
     raised := Some e |}.

Definition registering (job_def : string) : CmdrLine :=
  Info ("Registering " +:+ repr job_def +:+ " job definition...").

(** [submit_dag], lines 102-164; [cmdr0] is what [cmdr] had written before
    the call. *)
Definition submit_dag (ext : External) (tasks : Tasks) (args : list pyval)
    (job_def : string) (job_queue : string) (cmdr0 : list CmdrLine) : Run :=
  match boto3_client ext with
  | Some e => stopped cmdr0 e
  | None =>
      match client_register_job_definition ext with
      | Raise e => stopped (cmdr0 ++ [registering job_def]) e
      | Ok jobDefinitionArn =>
          match read_ploomber_cloud ext with
          | Raise e =>
              stopped (cmdr0 ++ [registering job_def;
                                 Info "Submitting jobs..."]) e
          | Ok runid =>
              match pkg_runs_update ext runid tasks with
              | Raise e =>
                  stopped (cmdr0 ++ [registering job_def;
                                     Info "Submitting jobs..."]) e
              | Ok out =>
                  loop (client_submit_job ext) jobDefinitionArn out args
                    job_queue tasks (init job_def cmdr0)
              end
          end
      end
  end.

(** The lines of 115 and 123 that a run got to write. *)
Definition opening (ext : External) (job_def : string) : list CmdrLine :=
  match boto3_client ext with
  | Some _ => []
  | None =>
      match client_register_job_definition ext with
      | Raise _ => [registering job_def]
      | Ok _ => [registering job_def; Info "Submitting jobs..."]
      end
  end.

(** One run of [_export]: the entry points [docker.build] was called with,
    the calls made to the Batch client, the [cmdr] output and the
    exception raised, if any. *)
Record ExportRun := {
  build_calls : list pyval;
  batch_calls : list (JobRequest * Response);
  export_cmdr : list CmdrLine;
  export_raised : option exn
}.

Definition no_tasks_msg (mode : string) : string :=
  "Loaded DAG in " +:+ repr mode +:+ " mode has no tasks to submit. Try " +:+
  str1 dquote +:+ "--mode force" +:+ str1 dquote +:+
  " to submit all tasks regardless of status".

Definition done_line : CmdrLine := Success "Done. Submitted to AWS Batch".

(** [Commander.__exit__] of ploomber, at the end of the [with] block: a
    [CommanderStop] is suppressed and its message written with [info]; any
    other exception goes on to the caller. The warnings it shows last, when
    [cmdr.warn] was called, are not lines of [info], [print] or [success]
    and are left out. *)
Definition commander_exit (r : ExportRun) : ExportRun :=
  match export_raised r with
  | Some (CommanderStop msg) =>
      {| build_calls := build_calls r;
         batch_calls := batch_calls r;
         export_cmdr := export_cmdr r ++ [Info msg];
         export_raised := None |}
  | _ => r
  end.

Section export.

Variable ext : External.
(** [docker.build], by the entry point it is given: the lines it writes
    through [cmdr], and the exception it raises or the
    [(pkg_name, remote_name)] it returns. *)
Variable build : pyval -> list CmdrLine * result (string * string).
(** [cfg.job_queue] *)
Variable job_queue : string.

(** The block under [with Commander(...) as cmdr] in [_export], from the
    point where [commons.load_tasks] has returned [(tasks, cli_args)];
    [cmdr0] is what [cmdr] has written by then. Lines 75-99. *)
Definition _export_block (tasks : Tasks) (cli_args : list pyval)
    (mode : string) (cmdr0 : list CmdrLine) : ExportRun :=
  match tasks with
  | [] =>
      {| build_calls := []; batch_calls := []; export_cmdr := cmdr0;
         export_raised := Some (CommanderStop (no_tasks_msg mode)) |}
  | _ :: _ =>
      match cli_args !! 1%nat with
      | None =>
          {| build_calls := []; batch_calls := []; export_cmdr := cmdr0;
             export_raised := Some IndexError |}
      | Some entry_point =>
          match (build entry_point).2 with
          | Raise e =>
              {| build_calls := [entry_point]; batch_calls := [];
                 export_cmdr := cmdr0 ++ (build entry_point).1;
                 export_raised := Some e |}
          | Ok (pkg_name, remote_name) =>
              let r := submit_dag ext tasks cli_args pkg_name job_queue
                         (cmdr0 ++ (build entry_point).1 ++
                          [Info "Submitting jobs to AWS Batch"])
              in
              {| build_calls := [entry_point];
                 batch_calls := calls (final r);
                 export_cmdr :=
                   match raised r with
                   | None => cmdr (final r) ++ [done_line]
                   | Some _ => cmdr (final r)
                   end;
                 export_raised := raised r |}
          end
      end
  end.

(** [AWSBatchExporter._export]: the block, then the exit of the [with]. *)
Definition _export (tasks : Tasks) (cli_args : list pyval)
    (mode : string) (cmdr0 : list CmdrLine) : ExportRun :=
  commander_exit (_export_block tasks cli_args mode cmdr0).

End export.

End AWSBatch.

(** ** [soopervisor/airflow/export.py] *)

Module Airflow.

(** A task's product: one file, or a [MetaProduct] holding several. Each
    file is given by [str(product)], its declared path. *)
Inductive Product :=
| File (path : string)
| MetaProduct (paths : list string).

(** [[p] if not isinstance(p, MetaProduct) else list(p)] *)
Definition product_paths (p : Product) : list string :=
  match p with
  | File path => [path]
  | MetaProduct paths => paths
  end.

(** The rendered DAG, in the order of [dag._iter()]: task name, product. *)
Definition ProductDag := list (string * Product).

(** [{env}] in the message: the file name, or [None]. *)
Definition env_str (env : option string) : string :=
  match env with
  | Some f => f
  | None => "None"
  end.

Definition invalid_msg (env : option string) (project_root : string)
    (products_invalid : list string) : string :=
  "The initialized DAG with " +:+ str1 dquote +:+ env_str env +:+
  str1 dquote +:+ " is " +:+
  "invalid. Some products are located under " +:+
  "the project's root folder, which is not allowed when " +:+
  "deploying " +:+
  "to Airflow. Modify your pipeline so all products are saved " +:+
  "outside the project's root folder " +:+ str1 dquote +:+ project_root +:+
  str1 dquote +:+ ". Fix " +:+
  "the following products:" +:+ str1 newline +:+
  join (str1 newline) products_invalid.

Section validate.

(** [str(Path(p).resolve())]: the file system's answer (current
    directory, symbolic links, [..]). *)
Variable resolve : string -> string.

(** [Path('.').resolve()] *)
Definition project_root : string := resolve ".".

(** Lines 83-85. *)
Definition products (dag : ProductDag) : list string :=
  flat_map (fun t => product_paths t.2) dag.

(** The condition of the comprehension at line 99. *)
Definition under_root (p : string) : bool :=
  startswith (resolve p) project_root.

(** Lines 95-100. *)
Definition products_invalid (dag : ProductDag) : list string :=
  List.filter under_root (products dag).

(** [AirflowExporter._validate], given whether [env.{env_name}.yaml]
    exists and the DAG that [DAGSpec.find(...).to_dag()] rendered. *)
Definition _validate (env_name : string) (env_exists : bool)
    (dag : ProductDag) : result unit :=
  let env := if env_exists
             then Some ("env." +:+ env_name +:+ ".yaml") else None in
  match products_invalid dag with
  | [] => Ok tt
  | _ :: _ =>
      Raise (ValueError
               (invalid_msg env project_root (products_invalid dag)))
  end.

End validate.

(** A path nested under [root]: [root] itself or [root/...]. *)
Definition nested_under (root p : string) : Prop :=
  p = root \/ exists rest, p = root +:+ "/" +:+ rest.

(** *** [_submit]: copying the project *)

(** The project tree: files and directories, a directory listing its
    entries by name. There are no symbolic links in it, so that
    [Path(src).resolve().relative_to(project_root)] is the list of names
    that leads from the root to [src]. *)
#[warnings="-register-all"] Inductive Entry :=
| FileEntry (content : string)
| DirEntry (entries : list (string * Entry)).

(** [str(path)] of a relative path given by its parts. *)
Definition path_str (parts : list string) : string :=
  match parts with
  | [] => "."
  | _ :: _ => join "/" parts
  end.

(** [name in ignored_names] *)
Definition name_in (name : string) (names : list string) : bool :=
  existsb (String.eqb name) names.

(** The loop of [copytree] over the entries of one directory: an ignored
    name is skipped, the others are copied by [copy]. *)
Definition copy_entries (copy : string -> Entry -> Entry)
    (ignored_names : list string)
  : list (string * Entry) -> list (string * Entry) :=
  fix go (l : list (string * Entry)) : list (string * Entry) :=
    match l with
    | [] => []
    | (name, child) :: rest =>
        if name_in name ignored_names then go rest
        else (name, copy name child) :: go rest
    end.

(** [shutil.copytree(src, dst, ignore=ignore)] on a tree: [ignore] is
    called once per directory visited, with the directory and the names in
    it; the directory is created and the entries not ignored are copied,
    directories recursively. [src] is the path from the root. *)
Fixpoint copytree (ignore : list string -> list string -> list string)
    (src : list string) (e : Entry) : Entry :=
  match e with
  | FileEntry content => FileEntry content
  | DirEntry entries =>
      DirEntry
        (copy_entries
           (fun name child => copytree ignore (src ++ [name]) child)
           (ignore src (map fst entries)) entries)
  end.

(** The entry at a relative path. *)
Fixpoint lookup_path (parts : list string) (e : Entry) : option Entry :=
  match parts with
  | [] => Some e
  | name :: rest =>
      match e with
      | FileEntry _ => None
      | DirEntry entries =>
          match List.find (fun ne => String.eqb name (fst ne)) entries with
          | Some (_, child) => lookup_path rest child
          | None => None
          end
      end
  end.

Section submit.

(** The parts of [env_name] as a path, and [project_root.name]. *)
Variable env_parts : list string.
Variable project_name : string.

(** [project_root_airflow.resolve().relative_to(project_root)] *)
Definition rel : list string := env_parts ++ ["ploomber"; project_name].

(** [rel.parts[0]] *)
Definition sub_dir : string := hd "" rel.

(** Lines 146-148. *)
Definition ignore (src : list string) (names : list string)
  : list string :=
  if startswith (path_str src) sub_dir then names else [].

(** Lines 139-150 of [AirflowExporter._submit]: the tree that
    [shutil.copytree] writes to [project_root_airflow] for the project tree
    [project], when the call goes through; [copy_project] below has the
    cases where it raises. [config.replace_env] (line 153), which then
    works on the env file of the copy, is not part of it. *)
Definition _submit (project : list (string * Entry)) : Entry :=
  copytree ignore [] (DirEntry project).

End submit.

(** *** [_dag_to_airflow] *)

(** An Airflow [BashOperator] inside its DAG. *)
Record Operator := {
  task_id : string;
  bash_command : string;
  upstream_task_ids : gset string;
  downstream_task_ids : gset string
}.

(** An Airflow [DAG]: [task_dict], in insertion order. *)
Record AirflowDAG := {
  dag_id : string;
  task_dict : list (string * Operator)
}.

Definition has_task (d : AirflowDAG) (id : string) : bool :=
  name_in id (map fst (task_dict d)).

(** [dag.get_task(task_id)] *)
Definition get_task (d : AirflowDAG) (id : string) : result Operator :=
  match List.find (fun kv => String.eqb id (fst kv)) (task_dict d) with
  | Some (_, op) => Ok op
  | None => Raise (AirflowException ("Task " +:+ id +:+ " not found"))
  end.

Definition alter_task (f : Operator -> Operator) (id : string)
    (l : list (string * Operator)) : list (string * Operator) :=
  map (fun kv => if String.eqb id (fst kv) then (fst kv, f (snd kv)) else kv)
      l.

(** [task.set_upstream(up)] for two tasks of [d]: [up] joins the upstream
    set of [task], and [task] the downstream set of [up]. *)
Definition set_upstream (d : AirflowDAG) (task up : string) : AirflowDAG :=
  {| dag_id := dag_id d;
     task_dict :=
       alter_task
         (fun op => {| task_id := task_id op;
                       bash_command := bash_command op;
                       upstream_task_ids := upstream_task_ids op;
                       downstream_task_ids :=
                         {[task]} ∪ downstream_task_ids op |})
         up
         (alter_task
            (fun op => {| task_id := task_id op;
                          bash_command := bash_command op;
                          upstream_task_ids :=
                            {[up]} ∪ upstream_task_ids op;
                          downstream_task_ids := downstream_task_ids op |})
            task (task_dict d)) |}.

Section dag_to_airflow.

(** [generate_script(config=script_cfg, project_name=..., command=...)]:
    the script, or the exception it raises. *)
Variable generate_script : string -> result string.
(** What Airflow has against a new [DAG] with this id, if anything: the
    exception of [DAG(dag_name, ...)], which validates the id. *)
Variable dag_refused : string -> option exn.
(** What Airflow has against a new operator with this task id, apart from
    its being in the DAG already: the exception of [BashOperator(...)], which
    validates the id (letters, digits, dashes, dots and underscores, 250
    characters at most) and the arguments. *)
Variable operator_refused : string -> option exn.

(** [DAG(dag_name, default_args=..., description=...,
    schedule_interval=None)], lines 197-202. *)
Definition DAG (dag_name : string) : result AirflowDAG :=
  match dag_refused dag_name with
  | Some e => Raise e
  | None => Ok {| dag_id := dag_name; task_dict := [] |}
  end.

(** [BashOperator(task_id=..., bash_command=..., dag=d)], lines 212-214:
    unless Airflow refuses it, the operator is added to the DAG; a task id
    already there is refused. *)
Definition BashOperator (d : AirflowDAG) (id cmd : string)
  : result AirflowDAG :=
  match operator_refused id with
  | Some e => Raise e
  | None =>
      if has_task d id
      then Raise (AirflowException ("Task id '" +:+ id +:+
                                    "' has already been added to the DAG"))
      else Ok {| dag_id := dag_id d;
                 task_dict := task_dict d ++
                   [(id, {| task_id := id; bash_command := cmd;
                            upstream_task_ids := ∅;
                            downstream_task_ids := ∅ |})] |}
  end.

(** Lines 204-214. *)
Fixpoint add_tasks (names : list string) (d : AirflowDAG)
  : result AirflowDAG :=
  match names with
  | [] => Ok d
  | task_name :: rest =>
      cmd ← generate_script ("ploomber task " +:+ task_name);
      d' ← BashOperator d task_name cmd;
      add_tasks rest d'
  end.

(** Lines 220-221, for one task. *)
Fixpoint link_upstream (task_name : string) (upstream : list string)
    (d : AirflowDAG) : result AirflowDAG :=
  match upstream with
  | [] => Ok d
  | up :: rest =>
      _ ← get_task d up;
      link_upstream task_name rest (set_upstream d task_name up)
  end.

(** Lines 216-221. *)
Fixpoint link_tasks (items : list (string * list string))
    (d : AirflowDAG) : result AirflowDAG :=
  match items with
  | [] => Ok d
  | (task_name, upstream) :: rest =>
      _ ← get_task d task_name;
      d' ← link_upstream task_name upstream d;
      link_tasks rest d'
  end.

(** [_dag_to_airflow]; [dag] lists each task of the Ploomber DAG with the
    names in its [upstream]. *)
Definition _dag_to_airflow (dag : list (string * list string))
    (dag_name : string) : result AirflowDAG :=
  dag_airflow ← DAG dag_name;
  d ← add_tasks (map fst dag) dag_airflow;
  link_tasks dag d.

End dag_to_airflow.

(** Each task of an Airflow DAG with its upstream set. *)
Definition upstream_view (d : AirflowDAG) : list (string * gset string) :=
  map (fun kv => (fst kv, upstream_task_ids (snd kv))) (task_dict d).

(** The upstream names that [items] give for task [k]. *)
Fixpoint links (items : list (string * list string)) (k : string)
  : gset string :=
  match items with
  | [] => ∅
  | (name, upstream) :: rest =>
      (if String.eqb name k then list_to_set upstream else ∅)
      ∪ links rest k
  end.

(** The operator that line 212 creates for a task, [cmd] being its
    script. *)
Definition new_operator (task_name cmd : string) : Operator :=
  {| task_id := task_name;
     bash_command := cmd;
     upstream_task_ids := ∅;
     downstream_task_ids := ∅ |}.

(** The dependency edges of an Airflow DAG, as (upstream, task) pairs. *)
Definition edges (d : AirflowDAG) : list (string * string) :=
  flat_map (fun kv => map (fun up => (up, fst kv))
                          (elements (upstream_task_ids (snd kv))))
           (task_dict d).

(** The upstream relations of a Ploomber DAG, as (upstream, task) pairs. *)
Definition dag_edges (dag : list (string * list string))
  : list (string * string) :=
  flat_map (fun item => map (fun up => (up, fst item)) (snd item)) dag.

(** Line 49: [Path(env_name, 'dags', project_name + '.py')], where [_add]
    writes the declaration of the DAG. *)
Definition path_out (env_parts : list string) (project_name : string)
  : list string :=
  env_parts ++ ["dags"; project_name +:+ ".py"].

(** An operator with [ups] and [downs] joined to its two sets. *)
Definition with_sets (op : Operator) (ups downs : gset string) : Operator :=
  {| task_id := task_id op;
     bash_command := bash_command op;
     upstream_task_ids := ups ∪ upstream_task_ids op;
     downstream_task_ids := downs ∪ downstream_task_ids op |}.

(** The tasks of [items] that have [k] among their upstream names. *)
Fixpoint dependents (items : list (string * list string)) (k : string)
  : gset string :=
  match items with
  | [] => ∅
  | (name, upstream) :: rest =>
      (if name_in k upstream then {[name]} else ∅) ∪ dependents rest k
  end.

(** The proper prefixes of a path, the empty one first. *)
Fixpoint proper_prefixes (parts : list string) : list (list string) :=
  match parts with
  | [] => []
  | name :: rest => [] :: map (cons name) (proper_prefixes rest)
  end.

(** What is in the way of a new directory at [parts] under [e], as
    [os.makedirs] finds it: nothing, an entry of that path, or a file where
    a directory is needed. *)
Inductive Obstacle :=
| NoObstacle
| Exists
| NotADirectory.

Fixpoint obstacle (parts : list string) (e : Entry) : Obstacle :=
  match parts with
  | [] => Exists
  | name :: rest =>
      match e with
      | FileEntry _ => NotADirectory
      | DirEntry entries =>
          match List.find (fun ne => String.eqb name (fst ne)) entries with
          | Some (_, child) => obstacle rest child
          | None => NoObstacle
          end
      end
  end.

(** How the call of line 150 ends. *)
Inductive CopyOutcome :=
| Copied (tree : Entry)
| FileExistsError
| NotADirectoryError.

(** Line 150, [shutil.copytree(project_root, dst=project_root_airflow,
    ignore=ignore)]: [copytree] lists the project, then creates the
    destination with [os.makedirs], which raises when it is there already
    or when a file stands on the way to it, then copies. The tree is what
    is at the destination when the call returns; [config.replace_env], which
    comes next in [_submit], is not among the sources. *)
Definition copy_project (env_parts : list string) (project_name : string)
    (project : list (string * Entry)) : CopyOutcome :=
  match obstacle (rel env_parts project_name) (DirEntry project) with
  | NoObstacle => Copied (_submit env_parts project_name project)
  | Exists => FileExistsError
  | NotADirectory => NotADirectoryError
  end.

End Airflow.

(** ** [tests/test_commons_docker.py]: the helpers that cut the output of
    [docker build] into sections *)

Module DockerOutput.

Definition CR : ascii := "013"%char.
Definition LF : ascii := "010"%char.

(** The one-byte line boundaries of [str.splitlines] besides [\r] and
    [\n]: [\v], [\f], [\x1c], [\x1d], [\x1e]. *)
Definition is_boundary (c : ascii) : bool :=
  let n := nat_of_ascii c in
  Nat.eqb n 11 || Nat.eqb n 12 || Nat.eqb n 28 || Nat.eqb n 29 ||
  Nat.eqb n 30.

Definition snoc (s : string) (c : ascii) : string := s +:+ str1 c.

(** [str.splitlines] on UTF-8 text, [cur] being the line read so far. The
    boundaries are [\n], [\r], [\r\n], the bytes of [is_boundary], and
    the encodings of U+0085 (C2 85), U+2028 and U+2029 (E2 80 A8, E2 80 A9).
    A line that is still empty when the text ends is not reported. *)
Fixpoint splitlines_from (cur : string) (s : string) : list string :=
  match s with
  | EmptyString => match cur with EmptyString => [] | _ => [cur] end
  | String c rest =>
      if Ascii.eqb c CR then
        match rest with
        | String d rest' =>
            if Ascii.eqb d LF then cur :: splitlines_from "" rest'
            else cur :: splitlines_from "" rest
        | EmptyString => cur :: splitlines_from "" rest
        end
      else if Ascii.eqb c LF || is_boundary c then
        cur :: splitlines_from "" rest
      else if Nat.eqb (nat_of_ascii c) 194 then
        match rest with
        | String d rest' =>
            if Nat.eqb (nat_of_ascii d) 133
            then cur :: splitlines_from "" rest'
            else splitlines_from (snoc cur c) rest
        | EmptyString => splitlines_from (snoc cur c) rest
        end
      else if Nat.eqb (nat_of_ascii c) 226 then
        match rest with
        | String d (String e rest'') =>
            if Nat.eqb (nat_of_ascii d) 128 &&
               (Nat.eqb (nat_of_ascii e) 168 || Nat.eqb (nat_of_ascii e) 169)
            then cur :: splitlines_from "" rest''
            else splitlines_from (snoc cur c) rest
        | _ => splitlines_from (snoc cur c) rest
        end
      else splitlines_from (snoc cur c) rest
  end.

(** [output.splitlines()] *)
Definition splitlines (output : string) : list string :=
  splitlines_from "" output.

(** [enumerate(lines)], counting from [i]. *)
Fixpoint enumerate_from {A} (i : nat) (l : list A) : list (nat * A) :=
  match l with
  | [] => []
  | x :: rest => (i, x) :: enumerate_from (S i) rest
  end.

(** [[idx for idx, line in enumerate(lines) if test(line)]] *)
Definition indices (test : string -> bool) (lines : list string)
  : list nat :=
  map fst (List.filter (fun il => test (snd il)) (enumerate_from 0 lines)).

(** The same, with the count starting at [k]. *)
Definition indices_from (test : string -> bool) (k : nat)
    (lines : list string) : list nat :=
  map fst (List.filter (fun il => test (snd il)) (enumerate_from k lines)).

(** [list(zip(idx, idx[1:]))] *)
Definition slices (idx : list nat) : list (nat * nat) :=
  combine idx (tl idx).

(** [lines[i:j]] for [i] and [j] that are not negative. *)
Definition slice (lines : list string) (i j : nat) : list string :=
  take (j - i) (drop i lines).

(** [line == ''] *)
Definition is_empty (line : string) : bool := String.eqb line "".

(** ['Step ' in line] *)
Definition has_step (line : string) : bool := contains line "Step ".

(** [_process_docker_output], lines 13-36. *)
Definition _process_docker_output (output : string) : list string :=
  let lines := splitlines output in
  let empty := indices is_empty lines in
  map (fun ij => join (str1 LF) (slice lines ij.1 ij.2)) (slices empty).

(** What [_process_docker_output_ci] gives: the sections, or the
    [UnboundLocalError] for the variable named. *)
Inductive Outcome :=
| Returned (sections : list string)
| UnboundLocalError (variable : string).

(** [_process_docker_output_ci], lines 39-53. The [j] of line 51 is the one
    the loop left, which no iteration has set when there are no slices. In
    [lines[i:j - 1]], [j] is at least 1, as it follows [i] in [step]. *)
Definition _process_docker_output_ci (output : string) : Outcome :=
  let lines := splitlines output in
  let step := indices has_step lines in
  let sections :=
    map (fun ij => join (str1 LF) (slice lines ij.1 (ij.2 - 1)))
        (slices step) in
  match last (slices step) with
  | None => UnboundLocalError "j"
  | Some (_, j) => Returned (sections ++ [join (str1 LF) (drop j lines)])
  end.

End DockerOutput.

(** ** Sample inputs *)

Module Sample.

Import Batch.

(** The graph with edges b←a, c←a, c←b. *)
Definition abc : Tasks := [("a", []); ("b", ["a"]); ("c", ["a"; "b"])].

(** A backend that accepts every job and names it after its task. *)
Definition by_name (tag : string)
  : list JobRequest -> JobRequest -> Response :=
  fun _ req => JobId (tag +:+ jobName req).

(** The same, except that the job of task [bad] is refused. *)
Definition fail_on (bad tag : string)
  : list JobRequest -> JobRequest -> Response :=
  fun _ req =>
    if String.eqb (jobName req) bad then Failed "AccessDenied"
    else JobId (tag +:+ jobName req).

(** A run update with a pull-request number. *)
Definition with_github : RunsUpdate :=
  {| taskids := {["a" := PyStr "t-1"]};
     github_number := PyInt 7 |}.

(** [resolve] on a file system without symbolic links, for paths without
    [.] or [..] parts, with current directory [cwd]. *)
Definition resolve_in (cwd path : string) : string :=
  if String.eqb path "." then cwd
  else if String.prefix "/" path then path
  else cwd +:+ "/" +:+ path.

(** A project with the Airflow environment folder already in it. *)
Definition project : list (string * Airflow.Entry) :=
  [("airflow",
    Airflow.DirEntry
      [("dags", Airflow.DirEntry [("proj.py", Airflow.FileEntry "dag")])]);
   ("pipeline.yaml", Airflow.FileEntry "tasks");
   ("src", Airflow.DirEntry [("load.py", Airflow.FileEntry "code")])].

(** Task ids for the three tasks, and no pull-request number. *)
Definition without_github : RunsUpdate :=
  {| taskids := {["a" := PyStr "t-1"; "b" := PyStr "t-2";
                  "c" := PyStr "t-3"]};
     github_number := PyNone |}.

(** The graph of [abc] with c listed before b. *)
Definition acb : Tasks := [("a", []); ("c", ["a"; "b"]); ("b", ["a"])].

(** The output of the test at lines 56-75 of the test file. *)
Definition ci_output : string :=
  "Step 1/7 : FROM A" +:+ str1 newline +:+
  " ---> hash" +:+ str1 newline +:+
  "Step 2/7 : COPY B C" +:+ str1 newline +:+
  " ---> Using cache" +:+ str1 newline +:+
  " ---> hash" +:+ str1 newline +:+
  "Step 3/7 : RUN D" +:+ str1 newline +:+
  " ---> Using cache" +:+ str1 newline +:+
  " ---> hash" +:+ str1 newline.

(** An output in the other format, its parts set apart by empty lines. *)
Definition local_output : string :=
  "#1 load" +:+ str1 newline +:+
  str1 newline +:+
  "#2 COPY" +:+ str1 newline +:+
  "#2 CACHED" +:+ str1 newline +:+
  str1 newline +:+
  "#3 RUN" +:+ str1 newline +:+
  str1 newline +:+
  "#4 done" +:+ str1 newline.

(** Everything outside goes through: the client is there, the job
    definition is registered as [arn], the run is [run-1] and
    [pkg.runs_update] answers [out] whatever the tasks. *)
Definition outside
    (backend : list Batch.JobRequest -> Batch.JobRequest -> Batch.Response)
    (out : option Batch.RunsUpdate) : AWSBatch.External :=
  {| AWSBatch.boto3_client := None;
     AWSBatch.client_register_job_definition := Ok "arn";
     AWSBatch.read_ploomber_cloud := Ok "run-1";
     AWSBatch.pkg_runs_update := fun _ _ => Ok out;
     AWSBatch.client_submit_job := backend |}.

(** The same, except that [../.ploomber-cloud] is not there. *)
Definition outside_without_cloud_file
    (backend : list Batch.JobRequest -> Batch.JobRequest -> Batch.Response)
    : AWSBatch.External :=
  {| AWSBatch.boto3_client := None;
     AWSBatch.client_register_job_definition := Ok "arn";
     AWSBatch.read_ploomber_cloud := Raise (ClientError "FileNotFoundError");
     AWSBatch.pkg_runs_update := fun _ _ => Ok None;
     AWSBatch.client_submit_job := backend |}.

(** A [docker.build] that writes one line and returns. *)
Definition build_ok (entry_point : pyval)
  : list Batch.CmdrLine * result (string * string) :=
  ([Batch.Info "Building image..."], Ok ("pkg", "repo/pkg:latest")).

(** The characters of an Airflow key. *)
Definition key_char (c : ascii) : bool :=
  let n := nat_of_ascii c in
  (Nat.leb 48 n && Nat.leb n 57) || (Nat.leb 65 n && Nat.leb n 90) ||
  (Nat.leb 97 n && Nat.leb n 122) || Nat.eqb n 95 || Nat.eqb n 46 ||
  Nat.eqb n 45.

Fixpoint key_chars (s : string) : bool :=
  match s with
  | EmptyString => true
  | String c r => key_char c && key_chars r
  end.

(** Airflow's [validate_key] on ASCII text without line ends: one or more
    letters, digits, dashes, dots and underscores, 250 at most. *)
Definition key_refused (key : string) : option exn :=
  if negb (String.eqb key "") && key_chars key &&
     Nat.leb (String.length key) 250
  then None
  else Some (AirflowException
               ("The key (" +:+ key +:+ ") has to be made of alphanumeric " +:+
                "characters, dashes, dots and underscores exclusively")).

(** The Airflow DAG declared for [abc] under the name [proj], with the
    commands as scripts. *)
Definition declared_abc : Airflow.AirflowDAG :=
  match Airflow._dag_to_airflow (fun command => Py.Ok command) key_refused
          key_refused abc "proj" with
  | Py.Ok d => d
  | Py.Raise _ => {| Airflow.dag_id := "proj"; Airflow.task_dict := [] |}
  end.

End Sample.

(** * Properties of [submit_dag] and [_export] *)

Import Batch.

Section batch_body.

Variable submit_job : list JobRequest -> JobRequest -> Response.
Variable jobDefinitionArn : string.
Variable out : option RunsUpdate.
Variable args : list pyval.
Variable job_queue : string.

Abbreviation ploomber_task := (ploomber_task out).
Abbreviation request := (request jobDefinitionArn args job_queue).
Abbreviation body := (body submit_job jobDefinitionArn out args job_queue).
Abbreviation loop := (loop submit_job jobDefinitionArn out args job_queue).
Abbreviation loop_trace :=
  (loop_trace submit_job jobDefinitionArn out args job_queue).
Abbreviation body_outcome :=
  (body_outcome submit_job jobDefinitionArn out args job_queue).

Lemma ploomber_task_raise name e :
  ploomber_task name = Raise e -> e = KeyError name.
Proof.
  unfold Batch.ploomber_task. destruct out as [o|]; [|discriminate].
  unfold getitem. destruct (taskids o !! name); simpl.
  - destruct (truthy _); discriminate.
  - congruence.
Qed.

Lemma depends_on_raise ids upstream e :
  depends_on ids upstream = Raise e ->
  exists k, e = KeyError k /\ In k upstream /\ ids !! k = None.
Proof.
  induction upstream as [|u rest IH]; simpl; [discriminate|].
  unfold getitem. destruct (ids !! u) eqn:Hu; simpl.
  - destruct (depends_on ids rest) eqn:Hrest; simpl; [discriminate|].
    intros [= <-]. destruct (IH eq_refl) as (k & -> & Hin & Hk).
    exists k. auto.
  - intros [= <-]. exists u. auto.
Qed.

Lemma depends_on_ok ids upstream deps :
  depends_on ids upstream = Ok deps ->
  Forall2 (fun u d => ids !! u = Some d) upstream deps.
Proof.
  revert deps. induction upstream as [|u rest IH]; simpl; intros deps.
  - intros [= <-]. constructor.
  - unfold getitem. destruct (ids !! u) eqn:Hu; simpl; [|discriminate].
    destruct (depends_on ids rest) eqn:Hrest; simpl; [|discriminate].
    intros [= <-]. constructor; auto.
Qed.

Lemma body_cases st name upstream :
  body_outcome st name upstream (body st (name, upstream)).
Proof.
  unfold Batch.body.
  destruct (ploomber_task name) as [task_cmd|e] eqn:Hcmd.
  - destruct (depends_on (job_ids st) upstream) as [deps|e] eqn:Hdeps.
    + destruct (submit_job _ _) eqn:Hresp.
      * eapply body_failed; eauto.
      * eapply body_submitted; eauto.
    + destruct (depends_on_raise _ _ _ Hdeps) as (k & -> & Hin & Hk).
      apply body_key_error. auto.
  - rewrite (ploomber_task_raise _ _ Hcmd). apply body_key_error. auto.
Qed.

End batch_body.

(** Case analysis on how the iteration for [(name, upstream)] ends. *)
Ltac body_split st name upstream pat :=
  match goal with
  | |- context [Batch.body ?a ?b ?c ?d ?e st (name, upstream)] =>
      generalize (body_cases a b c d e st name upstream);
      generalize (Batch.body a b c d e st (name, upstream))
  end;
  let r := fresh "r" in
  let Hr := fresh "Hr" in
  intros r Hr; destruct Hr as pat; cbn [raised final].

Section batch_loop.

Variable submit_job : list JobRequest -> JobRequest -> Response.
Variable jobDefinitionArn : string.
Variable out : option RunsUpdate.
Variable args : list pyval.
Variable job_queue : string.

Abbreviation ploomber_task := (ploomber_task out).
Abbreviation request := (request jobDefinitionArn args job_queue).
Abbreviation body := (body submit_job jobDefinitionArn out args job_queue).
Abbreviation loop := (loop submit_job jobDefinitionArn out args job_queue).
Abbreviation loop_trace :=
  (loop_trace submit_job jobDefinitionArn out args job_queue).
Abbreviation body_outcome :=
  (body_outcome submit_job jobDefinitionArn out args job_queue).

Lemma loop_cons item rest st :
  loop (item :: rest) st =
  match raised (body st item) with
  | None => loop rest (final (body st item))
  | Some _ => body st item
  end.
Proof. reflexivity. Qed.

Lemma loop_trace_cons item rest st :
  loop_trace (item :: rest) st =
  match raised (body st item) with
  | None => st :: loop_trace rest (final (body st item))
  | Some _ => [st; final (body st item)]
  end.
Proof. reflexivity. Qed.

Lemma ids_answered_deps st upstream deps :
  ids_answered st ->
  depends_on (job_ids st) upstream = Ok deps ->
  Forall2 (fun u d => exists req,
               In (req, JobId d) (calls st) /\ jobName req = u)
          upstream deps.
Proof.
  intros Hst Hdeps. apply depends_on_ok in Hdeps.
  eapply Forall2_impl; [exact Hdeps|]. intros u d Hu. apply (Hst _ _ Hu).
Qed.

Lemma ids_answered_insert st name deps task_cmd id cm :
  ids_answered st ->
  ids_answered
    {| job_ids := <[name := id]> (job_ids st);
       calls := calls st ++ [(request name deps task_cmd, JobId id)];
       cmdr := cm |}.
Proof.
  intros Hst u j. simpl. rewrite lookup_insert.
  destruct (decide (name = u)) as [->|Hne].
  - intros [= <-]. exists (request u deps task_cmd).
    split; [apply in_or_app; right; left; reflexivity | reflexivity].
  - intros Hu. destruct (Hst _ _ Hu) as (req & Hin & Hname).
    exists req. split; [apply in_or_app; left; exact Hin | exact Hname].
Qed.

(** The calls of a run, one per task in the order of [tasks]: each names
    its task, and each of its dependencies is the id that an earlier call
    for that upstream task was answered with. *)
Lemma loop_calls items st :
  ids_answered st ->
  ids_answered (final (loop items st)) /\
  exists new,
    calls (final (loop items st)) = calls st ++ new /\
    forall pre req resp post,
      new = pre ++ (req, resp) :: post ->
      exists upstream,
        items !! length pre = Some (jobName req, upstream) /\
        Forall2 (fun u d => exists req',
                     In (req', JobId d) (calls st ++ pre) /\
                     jobName req' = u)
                upstream (dependsOn req).
Proof.
  revert st. induction items as [|[name upstream] rest IH]; intros st Hst.
  - simpl. split; [exact Hst|]. exists []. rewrite app_nil_r.
    split; [reflexivity|]. intros [|? ?] ? ? ? H; discriminate H.
  - rewrite loop_cons. body_split st name upstream
      ipattern:([k Hk | task_cmd deps err Hcmd Hdeps Hresp
                 | task_cmd deps id Hcmd Hdeps Hresp]).
    + split; [exact Hst|]. exists []. rewrite app_nil_r.
      split; [reflexivity|]. intros [|? ?] ? ? ? H; discriminate H.
    + split.
      { intros u j Hu. destruct (Hst _ _ Hu) as (req & Hin & Hname).
        exists req. split; [apply in_or_app; left; exact Hin|exact Hname]. }
      eexists. split; [reflexivity|].
      intros pre req resp post Hnew.
      destruct pre as [|x pre].
      * injection Hnew as <- <- <-. exists upstream.
        split; [reflexivity|]. simpl. rewrite app_nil_r.
        apply ids_answered_deps; assumption.
      * destruct pre; discriminate Hnew.
    + pose proof (ids_answered_insert st name deps task_cmd id
                    (cmdr st ++ [Print (submitted_msg name)]) Hst) as Hst'.
      destruct (IH _ Hst') as (Hfin & new & Hcalls & Hnew).
      split; [exact Hfin|].
      exists ((request name deps task_cmd, JobId id) :: new).
      split.
      { rewrite Hcalls. simpl. rewrite <- app_assoc. reflexivity. }
      intros pre req resp post Heq.
      destruct pre as [|x pre].
      * injection Heq as <- <- <-. exists upstream.
        split; [reflexivity|]. simpl. rewrite app_nil_r.
        apply ids_answered_deps; assumption.
      * injection Heq as <- Heq.
        destruct (Hnew _ _ _ _ Heq) as (ups & Hlook & Hdeps').
        exists ups. split; [exact Hlook|].
        simpl in Hdeps'. rewrite <- app_assoc in Hdeps'. exact Hdeps'.
Qed.

(** A key that [KeyError] reports is the task being submitted or one of
    its upstream tasks. *)
Lemma loop_key_error items st k :
  raised (loop items st) = Some (KeyError k) ->
  exists name upstream,
    In (name, upstream) items /\ (k = name \/ In k upstream).
Proof.
  revert st. induction items as [|[name upstream] rest IH]; intros st.
  - discriminate.
  - rewrite loop_cons. body_split st name upstream
      ipattern:([k' Hk | task_cmd deps err Hcmd Hdeps Hresp
                 | task_cmd deps id Hcmd Hdeps Hresp]).
    + intros [= ->]. exists name, upstream. split; [left; reflexivity|].
      destruct Hk as [Hk|[Hk _]]; auto.
    + discriminate.
    + intros H. destruct (IH _ H) as (n & ups & Hin & Hk).
      exists n, ups. split; [right; exact Hin | exact Hk].
Qed.

(** Where a run stops: the tasks before that point were answered with an
    id and announced, in order; a failed call is the last one. *)
Lemma loop_shape items st :
  exists pre post done,
    items = pre ++ post /\
    map (fun c => jobName c.1) done = map fst pre /\
    Forall (fun c => exists id, c.2 = JobId id) done /\
    cmdr (final (loop items st)) =
      cmdr st ++ map (fun item => Print (submitted_msg item.1)) pre /\
    match raised (loop items st) with
    | None => post = [] /\ calls (final (loop items st)) = calls st ++ done
    | Some (ClientError err) =>
        exists name upstream post' req,
          post = (name, upstream) :: post' /\ jobName req = name /\
          calls (final (loop items st)) =
            calls st ++ done ++ [(req, Failed err)]
    | Some _ =>
        post <> [] /\ calls (final (loop items st)) = calls st ++ done
    end.
Proof.
  revert st. induction items as [|[name upstream] rest IH]; intros st.
  - exists [], [], []. simpl. rewrite !app_nil_r. repeat split; constructor.
  - rewrite loop_cons. body_split st name upstream
      ipattern:([k' Hk | task_cmd deps err Hcmd Hdeps Hresp
                 | task_cmd deps id Hcmd Hdeps Hresp]).
    + exists [], ((name, upstream) :: rest), []. simpl. rewrite !app_nil_r.
      repeat split; try constructor. discriminate.
    + exists [], ((name, upstream) :: rest), []. simpl. rewrite !app_nil_r.
      repeat split; try constructor.
      exists name, upstream, rest, (request name deps task_cmd).
      repeat split.
    + destruct (IH {| job_ids := <[name:=id]> (job_ids st);
                      calls := calls st ++
                               [(request name deps task_cmd, JobId id)];
                      cmdr := cmdr st ++ [Print (submitted_msg name)] |})
        as (pre & post & done & Hitems & Hnames & Hdone & Hcmdr & Hend).
      exists ((name, upstream) :: pre), post,
             ((request name deps task_cmd, JobId id) :: done).
      simpl in *. split; [congruence|]. split; [congruence|].
      split; [constructor; [eexists; reflexivity | exact Hdone]|].
      split; [rewrite Hcmdr, <- app_assoc; reflexivity|].
      destruct (raised (loop rest _)) as [[]|].
      all: try (destruct Hend as [Hpost Hcalls]; split; [exact Hpost|];
                rewrite Hcalls, <- app_assoc; reflexivity).
      destruct Hend as (n & ups & post' & req & Hpost & Hreq & Hcalls).
      exists n, ups, post', req. repeat split; try assumption.
      rewrite Hcalls, <- app_assoc. reflexivity.
Qed.

(** Every call of a run carries the command built for its task. *)
Lemma loop_commands items st req resp :
  In (req, resp) (calls (final (loop items st))) ->
  In (req, resp) (calls st) \/
  exists deps task_cmd,
    ploomber_task (jobName req) = Ok task_cmd /\
    req = request (jobName req) deps task_cmd.
Proof.
  revert st. induction items as [|[name upstream] rest IH]; intros st.
  - left. assumption.
  - rewrite loop_cons. body_split st name upstream
      ipattern:([k' Hk | task_cmd deps err Hcmd Hdeps Hresp
                 | task_cmd deps id Hcmd Hdeps Hresp]).
    + left. assumption.
    + simpl. intros [H|[[= <- <-]|[]]]%in_app_or; [left; exact H|].
      right. exists deps, task_cmd. split; [exact Hcmd | reflexivity].
    + intros H. destruct (IH _ H) as [Hin|Hnew]; [|right; exact Hnew].
      simpl in Hin. apply in_app_or in Hin as [Hin|[[= <- <-]|[]]].
      * left. exact Hin.
      * right. exists deps, task_cmd. split; [exact Hcmd | reflexivity].
Qed.

Lemma loop_trace_head items st :
  exists tl, loop_trace items st = st :: tl.
Proof.
  destruct items as [|item rest]; simpl; [eauto|].
  destruct (raised _); eauto.
Qed.

(** Each step of the trace leaves [job_ids] as it is, or files one id
    under a name that had none. *)
Lemma loop_trace_step items st :
  NoDup (map fst items) ->
  (forall name, In name (map fst items) -> job_ids st !! name = None) ->
  forall l1 s s' l2,
    loop_trace items st = l1 ++ s :: s' :: l2 ->
    job_ids s' = job_ids s \/
    exists name id,
      In name (map fst items) /\
      job_ids s !! name = None /\
      job_ids s' = <[name := id]> (job_ids s).
Proof.
  revert st. induction items as [|[name upstream] rest IH];
    intros st Hnd Hfresh l1 s s' l2.
  - simpl. destruct l1 as [|? [|? ?]]; discriminate.
  - rewrite loop_trace_cons. simpl in Hnd. inversion Hnd as [|? ? Hnotin Hnd'].
    subst. body_split st name upstream
      ipattern:([k' Hk | task_cmd deps err Hcmd Hdeps Hresp
                 | task_cmd deps id Hcmd Hdeps Hresp]).
    + intros Heq. destruct l1 as [|? [|? [|? ?]]]; try discriminate Heq.
      injection Heq as <- <- <-. left. reflexivity.
    + intros Heq. destruct l1 as [|? [|? [|? ?]]]; try discriminate Heq.
      injection Heq as <- <- <-. left. reflexivity.
    + intros Heq. destruct l1 as [|x l1].
      * injection Heq as <- Heq. right. exists name, id.
        split; [left; reflexivity|].
        split; [apply Hfresh; left; reflexivity|].
        destruct (loop_trace_head rest
                    {| job_ids := <[name:=id]> (job_ids st);
                       calls := calls st ++
                                [(request name deps task_cmd, JobId id)];
                       cmdr := cmdr st ++ [Print (submitted_msg name)] |})
          as [tl Htl].
        rewrite Htl in Heq. injection Heq as <- _. reflexivity.
      * injection Heq as <- Heq.
        edestruct IH as [Hsame|(n & j & Hn & Hs & Hs')];
          [exact Hnd' | | exact Heq | |].
        { intros n Hn. simpl. rewrite lookup_insert_ne.
          - apply Hfresh. right. exact Hn.
          - intros ->. apply Hnotin, list_elem_of_In, Hn. }
        { left. exact Hsame. }
        { right. exists n, j. split; [right; exact Hn|]. split; assumption. }
Qed.

Lemma loop_trace_last items st :
  last (loop_trace items st) = Some (final (loop items st)).
Proof.
  revert st. induction items as [|[name upstream] rest IH]; intros st.
  - reflexivity.
  - rewrite loop_trace_cons, loop_cons.
    destruct (raised (body st (name, upstream))); [reflexivity|].
    destruct (loop_trace_head rest (final (body st (name, upstream))))
      as [tl Htl].
    rewrite <- IH, Htl. reflexivity.
Qed.

(** After a run that completes, the names with an id are those that had
    one before and the tasks of the run. *)
Lemma loop_job_ids items st name :
  raised (loop items st) = None ->
  is_Some (job_ids (final (loop items st)) !! name) <->
  is_Some (job_ids st !! name) \/ In name (map fst items).
Proof.
  revert st. induction items as [|[n upstream] rest IH]; intros st.
  - simpl. tauto.
  - rewrite loop_cons. body_split st n upstream
      ipattern:([k' Hk | task_cmd deps err Hcmd Hdeps Hresp
                 | task_cmd deps id Hcmd Hdeps Hresp]).
    + discriminate.
    + discriminate.
    + intros H. rewrite (IH _ H). simpl. rewrite lookup_insert.
      destruct (decide (n = name)) as [->|Hne].
      * split; [tauto|]. intros _. left. eexists. reflexivity.
      * tauto.
Qed.

End batch_loop.

(** In a list whose neighbours are related by a preorder, an element is
    related to every later one. *)
Lemma chain_related {A} (R : A -> A -> Prop) (l : list A) :
  (forall a, R a a) ->
  (forall a b c, R a b -> R b c -> R a c) ->
  (forall l1 a b l2, l = l1 ++ a :: b :: l2 -> R a b) ->
  forall i j a b, i <= j -> l !! i = Some a -> l !! j = Some b -> R a b.
Proof.
  intros Hrefl Htrans. induction l as [|x l IH]; intros Hstep i j a b Hle Hi Hj.
  - discriminate Hi.
  - assert (forall l1 a b l2, l = l1 ++ a :: b :: l2 -> R a b) as Hstep'.
    { intros l1 a' b' l2 ->. apply (Hstep (x :: l1) a' b' l2). reflexivity. }
    destruct i as [|i], j as [|j]; simpl in Hi, Hj.
    + injection Hi as <-. injection Hj as <-. apply Hrefl.
    + injection Hi as <-. destruct l as [|y l]; [discriminate Hj|].
      apply (Htrans _ y).
      * apply (Hstep [] x y l). reflexivity.
      * apply (IH Hstep' 0 j); [lia | reflexivity | exact Hj].
    + lia.
    + apply (IH Hstep' i j); [lia | exact Hi | exact Hj].
Qed.

(** ** The claims about AWS Batch *)

(** C1. A task is sent to the backend only after every one of its upstream
    tasks was sent and answered: the call at position [length pre] is for the
    task at that position of [tasks], and its [dependsOn] lists, upstream by
    upstream, an id that an earlier call for that upstream task was answered
    with. The backend is never given an id it did not hand out before. *)
Theorem submit_after_upstream
    (submit_job : list JobRequest -> JobRequest -> Response)
    (jobDefinitionArn : string) (out : option RunsUpdate)
    (args : list pyval) (job_queue : string) (tasks : Tasks)
    (job_def : string) (cmdr0 : list CmdrLine)
    (pre : list (JobRequest * Response)) (req : JobRequest)
    (resp : Response) (post : list (JobRequest * Response)) :
  calls (final (submit_dag submit_job jobDefinitionArn out args job_queue
                  tasks job_def cmdr0))
    = pre ++ (req, resp) :: post ->
  exists upstream,
    tasks !! length pre = Some (jobName req, upstream) /\
    Forall (fun c => exists id, c.2 = JobId id) pre /\
    Forall2 (fun u d => exists req',
                 In (req', JobId d) pre /\ jobName req' = u)
            upstream (dependsOn req).
Proof.
  intros Hcalls. unfold submit_dag in Hcalls.
  destruct (loop_calls submit_job jobDefinitionArn out args job_queue tasks
              (init job_def cmdr0)) as (_ & new & Hnew & Hspec).
  { intros u id. simpl. rewrite lookup_empty. discriminate. }
  simpl in Hnew. rewrite Hnew in Hcalls. subst new.
  destruct (Hspec _ _ _ _ eq_refl) as (upstream & Hlook & Hdeps).
  exists upstream. split; [exact Hlook|]. split; [|exact Hdeps].
  destruct (loop_shape submit_job jobDefinitionArn out args job_queue tasks
              (init job_def cmdr0))
    as (pre' & post' & done & _ & _ & Hdone & _ & Hend).
  assert (exists tl, pre ++ (req, resp) :: post = done ++ tl /\
                     length tl <= 1) as (tl & Htl & Hlen).
  { rewrite Hnew in Hend. simpl in Hend.
    destruct (raised _) as [[]|].
    all: try (destruct Hend as [_ ->]; exists []; rewrite app_nil_r;
              split; [reflexivity | simpl; lia]).
    destruct Hend as (? & ? & ? & r & _ & _ & ->).
    exists [(r, Failed msg)]. split; [reflexivity | simpl; lia]. }
  assert (length pre <= length done) as Hle.
  { apply (f_equal length) in Htl. rewrite !length_app in Htl.
    simpl in Htl. lia. }
  apply (f_equal (take (length pre))) in Htl.
  rewrite take_app_length, take_app_le in Htl by exact Hle.
  rewrite Htl. apply Forall_take. exact Hdone.
Qed.

Lemma submit_after_upstream_witness :
  exists upstream,
    Sample.abc !! 2%nat = Some ("c", upstream) /\
    Forall (fun c : JobRequest * Response => exists id, c.2 = JobId id)
      [(request "arn" [] "queue" "a" [] [PyStr "ploomber"; PyStr "task";
                                         PyStr "a"], JobId "id-a");
       (request "arn" [] "queue" "b" ["id-a"]
          [PyStr "ploomber"; PyStr "task"; PyStr "b"], JobId "id-b")] /\
    Forall2 (fun u d => exists req',
                 In (req', JobId d)
                   [(request "arn" [] "queue" "a" []
                       [PyStr "ploomber"; PyStr "task"; PyStr "a"],
                     JobId "id-a");
                    (request "arn" [] "queue" "b" ["id-a"]
                       [PyStr "ploomber"; PyStr "task"; PyStr "b"],
                     JobId "id-b")] /\
                 jobName req' = u)
            upstream ["id-a"; "id-b"].
Proof.
  apply (submit_after_upstream (Sample.by_name "id-") "arn" None [] "queue"
           Sample.abc "pkg" []
           [(request "arn" [] "queue" "a" []
               [PyStr "ploomber"; PyStr "task"; PyStr "a"], JobId "id-a");
            (request "arn" [] "queue" "b" ["id-a"]
               [PyStr "ploomber"; PyStr "task"; PyStr "b"], JobId "id-b")]
           (request "arn" [] "queue" "c" ["id-a"; "id-b"]
              [PyStr "ploomber"; PyStr "task"; PyStr "c"])
           (JobId "id-c") []).
  vm_compute. reflexivity.
Defined.

(** The run of the specification's example: a, then b after a, then c after
    both. *)
Example submit_abc :
  map (fun c : JobRequest * Response => (jobName c.1, dependsOn c.1, c.2))
      (calls (final (submit_dag (Sample.by_name "id-") "arn" None [] "queue"
                       Sample.abc "pkg" [])))
  = [("a", [], JobId "id-a");
     ("b", ["id-a"], JobId "id-b");
     ("c", ["id-a"; "id-b"], JobId "id-c")].
Proof. vm_compute. reflexivity. Qed.

(** [submit_dag] itself looks every upstream name up: a name that is not a
    task of [tasks] raises [KeyError]. *)
Example submit_dangling_upstream :
  raised (submit_dag (Sample.by_name "id-") "arn" None [] "queue"
            [("b", ["a"])] "pkg" [])
  = Some (KeyError "a").
Proof. vm_compute. reflexivity. Qed.

(** C3. On a filtered graph, the upstream tasks that were filtered out are
    left out of the dependencies: the call for a task lists, for each of its
    upstream tasks that is in [subset] and for no other, an id that an
    earlier call for it was answered with. A [KeyError], if any, is about a
    task of the filtered graph, never about one that was filtered out. *)
Theorem absent_upstream_omitted
    (submit_job : list JobRequest -> JobRequest -> Response)
    (jobDefinitionArn : string) (out : option RunsUpdate)
    (args : list pyval) (job_queue : string)
    (graph : Tasks) (subset : gset string)
    (job_def : string) (cmdr0 : list CmdrLine) :
  (forall name upstream u,
      In (name, upstream) graph -> In u upstream -> In u (map fst graph)) ->
  (forall pre req resp post,
      calls (final (submit_dag submit_job jobDefinitionArn out args job_queue
                      (restrict graph subset) job_def cmdr0))
        = pre ++ (req, resp) :: post ->
      exists upstream,
        In (jobName req, upstream) graph /\
        jobName req ∈ subset /\
        Forall2 (fun u d => exists req',
                     In (req', JobId d) pre /\ jobName req' = u)
                (filter (fun u => u ∈ subset) upstream) (dependsOn req)) /\
  (forall k,
      raised (submit_dag submit_job jobDefinitionArn out args job_queue
                (restrict graph subset) job_def cmdr0)
        = Some (KeyError k) ->
      k ∈ subset /\ In k (map fst (restrict graph subset))).
Proof.
  intros Hclosed.
  assert (forall name ups, In (name, ups) (restrict graph subset) ->
            exists upstream, In (name, upstream) graph /\ name ∈ subset /\
                             ups = filter (fun u => u ∈ subset) upstream)
    as Hrestrict.
  { intros name ups Hin. unfold restrict in Hin.
    apply in_map_iff in Hin as ([n upstream] & [= <- <-] & Hin).
    apply list_elem_of_In, list_elem_of_filter in Hin as [Hn Hin].
    exists upstream. split; [apply list_elem_of_In; exact Hin|].
    split; [exact Hn | reflexivity]. }
  assert (forall k, k ∈ subset -> In k (map fst graph) ->
            In k (map fst (restrict graph subset))) as Hkeys.
  { intros k Hk Hin. apply in_map_iff in Hin as ([n upstream] & <- & Hin).
    unfold restrict. rewrite map_map. simpl.
    apply in_map_iff. exists (n, upstream). split; [reflexivity|].
    apply list_elem_of_In, list_elem_of_filter.
    split; [exact Hk | apply list_elem_of_In; exact Hin]. }
  split.
  - intros pre req resp post Hcalls. unfold submit_dag in Hcalls.
    destruct (loop_calls submit_job jobDefinitionArn out args job_queue
                (restrict graph subset) (init job_def cmdr0))
      as (_ & new & Hnew & Hspec).
    { intros u id. simpl. rewrite lookup_empty. discriminate. }
    simpl in Hnew. rewrite Hnew in Hcalls. subst new.
    destruct (Hspec _ _ _ _ eq_refl) as (ups & Hlook & Hdeps).
    apply list_elem_of_lookup_2, list_elem_of_In, Hrestrict in Hlook
      as (upstream & Hin & Hname & ->).
    exists upstream. auto.
  - intros k Hk. unfold submit_dag in Hk.
    apply loop_key_error in Hk as (name & ups & Hin & Hk).
    pose proof Hin as Hin'.
    apply Hrestrict in Hin as (upstream & Hin & Hname & ->).
    destruct Hk as [->|Hk].
    + split; [exact Hname|]. apply in_map_iff. eexists.
      split; [|exact Hin']. reflexivity.
    + apply list_elem_of_In, list_elem_of_filter in Hk as [Hk Hu].
      split; [exact Hk|]. apply Hkeys; [exact Hk|].
      eapply Hclosed; [exact Hin | apply list_elem_of_In; exact Hu].
Qed.

Lemma abc_closed :
  forall name upstream u,
    In (name, upstream) Sample.abc -> In u upstream ->
    In u (map fst Sample.abc).
Proof.
  intros name upstream u Hin Hu. simpl in *.
  destruct Hin as [[= <- <-]|[[= <- <-]|[[= <- <-]|[]]]];
    simpl in Hu; intuition.
Defined.

Lemma absent_upstream_omitted_witness :
  (forall pre req resp post,
      calls (final (submit_dag (Sample.by_name "id-") "arn" None [] "queue"
                      (restrict Sample.abc {["b"; "c"]}) "pkg" []))
        = pre ++ (req, resp) :: post ->
      exists upstream,
        In (jobName req, upstream) Sample.abc /\
        jobName req ∈ ({["b"; "c"]} : gset string) /\
        Forall2 (fun u d => exists req',
                     In (req', JobId d) pre /\ jobName req' = u)
                (filter (fun u => u ∈ ({["b"; "c"]} : gset string)) upstream)
                (dependsOn req)) /\
  (forall k,
      raised (submit_dag (Sample.by_name "id-") "arn" None [] "queue"
                (restrict Sample.abc {["b"; "c"]}) "pkg" [])
        = Some (KeyError k) ->
      k ∈ ({["b"; "c"]} : gset string) /\
      In k (map fst (restrict Sample.abc {["b"; "c"]}))).
Proof.
  exact (absent_upstream_omitted (Sample.by_name "id-") "arn" None []
           "queue" Sample.abc {["b"; "c"]} "pkg" [] abc_closed).
Defined.

(** With a filtered out, b depends on nothing and c on b alone. *)
Example submit_abc_without_a :
  map (fun c : JobRequest * Response => (jobName c.1, dependsOn c.1, c.2))
      (calls (final (submit_dag (Sample.by_name "id-") "arn" None [] "queue"
                       (restrict Sample.abc {["b"; "c"]}) "pkg" [])))
  = [("b", [], JobId "id-b"); ("c", ["id-b"], JobId "id-c")].
Proof. vm_compute. reflexivity. Qed.



Lemma abc_nodup : NoDup (map fst Sample.abc).
Proof. apply (bool_decide_unpack _). vm_compute. reflexivity. Defined.


(** C8. [job_ids] only grows, by one new name at a time: each iteration
    leaves it as it is (the iteration raised) or files one id under a task
    name that had none; so an entry, once there, is the same in every later
    state, and after a run that completes the names with an id are the
    tasks. *)
Theorem job_ids_written_once
    (submit_job : list JobRequest -> JobRequest -> Response)
    (jobDefinitionArn : string) (out : option RunsUpdate)
    (args : list pyval) (job_queue : string) (tasks : Tasks)
    (job_def : string) (cmdr0 : list CmdrLine) :
  NoDup (map fst tasks) ->
  let trace := loop_trace submit_job jobDefinitionArn out args job_queue
                 tasks (init job_def cmdr0) in
  let run := submit_dag submit_job jobDefinitionArn out args job_queue
               tasks job_def cmdr0 in
  trace !! 0%nat = Some (init job_def cmdr0) /\
  last trace = Some (final run) /\
  (forall l1 s s' l2,
      trace = l1 ++ s :: s' :: l2 ->
      job_ids s' = job_ids s \/
      exists name id,
        In name (map fst tasks) /\
        job_ids s !! name = None /\
        job_ids s' = <[name := id]> (job_ids s)) /\
  (forall i j s s' name id,
      i <= j -> trace !! i = Some s -> trace !! j = Some s' ->
      job_ids s !! name = Some id -> job_ids s' !! name = Some id) /\
  (raised run = None ->
   forall name, is_Some (job_ids (final run) !! name) <->
                In name (map fst tasks)).
Proof.
  intros Hnd trace run.
  assert (forall l1 s s' l2,
             trace = l1 ++ s :: s' :: l2 ->
             job_ids s' = job_ids s \/
             exists name id,
               In name (map fst tasks) /\
               job_ids s !! name = None /\
               job_ids s' = <[name := id]> (job_ids s)) as Hstep.
  { apply loop_trace_step; [exact Hnd|].
    intros name _. simpl. apply lookup_empty. }
  split.
  { subst trace. destruct (loop_trace_head submit_job jobDefinitionArn out
                             args job_queue tasks (init job_def cmdr0))
      as [tl ->]. reflexivity. }
  split; [apply loop_trace_last|]. split; [exact Hstep|]. split.
  - intros i j s s' name id Hle Hi Hj Hs.
    assert (job_ids s ⊆ job_ids s') as Hsub.
    { apply (chain_related (fun a b => job_ids a ⊆ job_ids b) trace)
        with (i := i) (j := j); try assumption.
      - intros a. reflexivity.
      - intros a b c Hab Hbc. etransitivity; eassumption.
      - intros l1 a b l2 Heq.
        destruct (Hstep _ _ _ _ Heq) as [->|(n & j' & _ & Hn & ->)].
        + reflexivity.
        + apply insert_subseteq. exact Hn. }
    eapply lookup_weaken; eassumption.
  - intros Hdone name. subst run. unfold submit_dag in *.
    rewrite loop_job_ids by exact Hdone. simpl. rewrite lookup_empty.
    split; [intros [[? [=]]|H]; exact H | auto].
Qed.

Lemma job_ids_written_once_witness :
  let trace := loop_trace (Sample.by_name "id-") "arn" None [] "queue"
                 Sample.abc (init "pkg" []) in
  let run := submit_dag (Sample.by_name "id-") "arn" None [] "queue"
               Sample.abc "pkg" [] in
  trace !! 0%nat = Some (init "pkg" []) /\
  last trace = Some (final run) /\
  (forall l1 s s' l2,
      trace = l1 ++ s :: s' :: l2 ->
      job_ids s' = job_ids s \/
      exists name id,
        In name (map fst Sample.abc) /\
        job_ids s !! name = None /\
        job_ids s' = <[name := id]> (job_ids s)) /\
  (forall i j s s' name id,
      i <= j -> trace !! i = Some s -> trace !! j = Some s' ->
      job_ids s !! name = Some id -> job_ids s' !! name = Some id) /\
  (raised run = None ->
   forall name, is_Some (job_ids (final run) !! name) <->
                In name (map fst Sample.abc)).
Proof.
  exact (job_ids_written_once (Sample.by_name "id-") "arn" None [] "queue"
           Sample.abc "pkg" [] abc_nodup).
Defined.

(** The successive contents of [job_ids] on the example graph. *)
Example job_ids_abc :
  map (fun st => map_to_list (job_ids st))
      (loop_trace (Sample.by_name "id-") "arn" None [] "queue" Sample.abc
         (init "pkg" []))
  = map (fun m : gmap string string => map_to_list m)
      [∅;
       {["a" := "id-a"]};
       {["a" := "id-a"; "b" := "id-b"]};
       {["a" := "id-a"; "b" := "id-b"; "c" := "id-c"]}].
Proof. vm_compute. reflexivity. Qed.

(** C9. With a run update whose [github_number] is truthy, the command of
    every job has the [ploomber.cli.task] invocation twice in a row, then
    [--github-number] and the number, then the arguments. *)
Theorem github_number_doubles_command
    (submit_job : list JobRequest -> JobRequest -> Response)
    (jobDefinitionArn : string) (o : RunsUpdate)
    (args : list pyval) (job_queue : string) (tasks : Tasks)
    (job_def : string) (cmdr0 : list CmdrLine)
    (req : JobRequest) (resp : Response) :
  truthy (github_number o) = true ->
  In (req, resp)
     (calls (final (submit_dag submit_job jobDefinitionArn (Some o) args
                      job_queue tasks job_def cmdr0))) ->
  exists task_id,
    taskids o !! jobName req = Some task_id /\
    command req =
      invocation (jobName req) task_id ++
      invocation (jobName req) task_id ++
      [PyStr "--github-number"; github_number o] ++ args.
Proof.
  intros Hgh Hin. unfold submit_dag in Hin.
  apply loop_commands in Hin as [[]|(deps & task_cmd & Hcmd & Hreq)].
  unfold ploomber_task, getitem in Hcmd.
  destruct (taskids o !! jobName req) as [task_id|]; simpl in Hcmd;
    [|discriminate Hcmd].
  rewrite Hgh in Hcmd. injection Hcmd as <-.
  exists task_id. split; [reflexivity|].
  rewrite Hreq. unfold request, invocation. simpl. reflexivity.
Qed.

Lemma github_number_doubles_command_witness :
  exists task_id,
    taskids Sample.with_github !! "a" = Some task_id /\
    [PyStr "python"; PyStr "-m"; PyStr "ploomber.cli.task"; PyStr "a";
     PyStr "--task-id"; PyStr "t-1";
     PyStr "python"; PyStr "-m"; PyStr "ploomber.cli.task"; PyStr "a";
     PyStr "--task-id"; PyStr "t-1";
     PyStr "--github-number"; PyInt 7;
     PyStr "aws"; PyStr "pipeline.yaml"] =
      invocation "a" task_id ++ invocation "a" task_id ++
      [PyStr "--github-number"; github_number Sample.with_github] ++
      [PyStr "aws"; PyStr "pipeline.yaml"].
Proof.
  apply (github_number_doubles_command (Sample.by_name "id-") "arn"
           Sample.with_github [PyStr "aws"; PyStr "pipeline.yaml"] "queue"
           [("a", [])] "pkg" []
           {| jobName := "a"; jobQueue := "queue"; jobDefinition := "arn";
              dependsOn := [];
              command :=
                [PyStr "python"; PyStr "-m"; PyStr "ploomber.cli.task";
                 PyStr "a"; PyStr "--task-id"; PyStr "t-1";
                 PyStr "python"; PyStr "-m"; PyStr "ploomber.cli.task";
                 PyStr "a"; PyStr "--task-id"; PyStr "t-1";
                 PyStr "--github-number"; PyInt 7;
                 PyStr "aws"; PyStr "pipeline.yaml"] |}
           (JobId "id-a")).
  - reflexivity.
  - vm_compute. left. reflexivity.
Defined.

(** Without a number the invocation is there once. *)
Example command_without_github_number :
  map (fun c : JobRequest * Response => command c.1)
      (calls (final (submit_dag (Sample.by_name "id-") "arn"
                       (Some {| taskids := {["a" := PyStr "t-1"]};
                                github_number := PyNone |})
                       [PyStr "aws"] "queue" [("a", [])] "pkg" [])))
  = [invocation "a" (PyStr "t-1") ++ [PyStr "aws"]].
Proof. vm_compute. reflexivity. Qed.

(** C4. When the loaded DAG has no task, the block of [_export] raises
    [CommanderStop] with the no-tasks message (given here for a [mode] in
    ASCII) at once: [docker.build] is not
    called and no job is sent. The exit of the [with] block suppresses that
    exception and writes its message with [cmdr.info], so that [_export]
    returns with the message shown and nothing else done. With at least one
    task the guard does not fire: the run goes on to [cli_args[1]] and
    [docker.build]. *)
Theorem no_tasks_stops_export
    (ext : AWSBatch.External)
    (build : pyval -> list CmdrLine * result (string * string))
    (job_queue : string) (tasks : Tasks) (cli_args : list pyval)
    (mode : string) (cmdr0 : list CmdrLine) :
  is_ascii mode = true ->
  (tasks = [] ->
   AWSBatch._export_block ext build job_queue tasks cli_args mode cmdr0
   = {| AWSBatch.build_calls := [];
        AWSBatch.batch_calls := [];
        AWSBatch.export_cmdr := cmdr0;
        AWSBatch.export_raised :=
          Some (CommanderStop
                  ("Loaded DAG in " +:+ repr mode +:+
                   " mode has no tasks to submit. Try " +:+ str1 dquote +:+
                   "--mode force" +:+ str1 dquote +:+
                   " to submit all tasks regardless of status")) |} /\
   AWSBatch._export ext build job_queue tasks cli_args mode cmdr0
   = {| AWSBatch.build_calls := [];
        AWSBatch.batch_calls := [];
        AWSBatch.export_cmdr :=
          cmdr0 ++
          [Info ("Loaded DAG in " +:+ repr mode +:+
                 " mode has no tasks to submit. Try " +:+ str1 dquote +:+
                 "--mode force" +:+ str1 dquote +:+
                 " to submit all tasks regardless of status")];
        AWSBatch.export_raised := None |}) /\
  (tasks <> [] ->
   (cli_args !! 1%nat = None /\
    AWSBatch._export ext build job_queue tasks cli_args mode cmdr0
    = {| AWSBatch.build_calls := [];
         AWSBatch.batch_calls := [];
         AWSBatch.export_cmdr := cmdr0;
         AWSBatch.export_raised := Some IndexError |}) \/
   (exists entry_point,
       cli_args !! 1%nat = Some entry_point /\
       AWSBatch.build_calls
         (AWSBatch._export ext build job_queue tasks cli_args mode cmdr0)
       = [entry_point])).
Proof.
  intros _. split.
  - intros ->. split; reflexivity.
  - intros Hne. destruct tasks as [|item rest]; [contradiction|].
    unfold AWSBatch._export, AWSBatch._export_block.
    destruct (cli_args !! 1%nat) as [entry_point|];
      [right | left; split; reflexivity].
    exists entry_point. split; [reflexivity|].
    destruct (build entry_point).2 as [[pkg_name remote_name]|e].
    + unfold AWSBatch.commander_exit. cbn [AWSBatch.export_raised].
      destruct (raised _) as [[]|]; reflexivity.
    + unfold AWSBatch.commander_exit. cbn [AWSBatch.export_raised].
      destruct e; reflexivity.
Qed.

Lemma no_tasks_stops_export_witness :
  AWSBatch._export_block (Sample.outside (Sample.by_name "id-") None)
    Sample.build_ok "queue" [] [PyStr "aws"; PyStr "pipeline.yaml"]
    "incremental" []
  = {| AWSBatch.build_calls := [];
       AWSBatch.batch_calls := [];
       AWSBatch.export_cmdr := [];
       AWSBatch.export_raised :=
         Some (CommanderStop
                 ("Loaded DAG in " +:+ repr "incremental" +:+
                  " mode has no tasks to submit. Try " +:+ str1 dquote +:+
                  "--mode force" +:+ str1 dquote +:+
                  " to submit all tasks regardless of status")) |} /\
  AWSBatch._export (Sample.outside (Sample.by_name "id-") None)
    Sample.build_ok "queue" [] [PyStr "aws"; PyStr "pipeline.yaml"]
    "incremental" []
  = {| AWSBatch.build_calls := [];
       AWSBatch.batch_calls := [];
       AWSBatch.export_cmdr :=
         [] ++
         [Info ("Loaded DAG in " +:+ repr "incremental" +:+
                " mode has no tasks to submit. Try " +:+ str1 dquote +:+
                "--mode force" +:+ str1 dquote +:+
                " to submit all tasks regardless of status")];
       AWSBatch.export_raised := None |}.
Proof.
  apply (proj1 (no_tasks_stops_export
                  (Sample.outside (Sample.by_name "id-") None)
                  Sample.build_ok "queue" []
                  [PyStr "aws"; PyStr "pipeline.yaml"] "incremental" []
                  eq_refl)).
  reflexivity.
Defined.

(** The message for the incremental mode. *)
Example no_tasks_msg_incremental :
  AWSBatch.no_tasks_msg "incremental" =
  "Loaded DAG in 'incremental' mode has no tasks to submit. Try " +:+
  str1 dquote +:+ "--mode force" +:+ str1 dquote +:+
  " to submit all tasks regardless of status".
Proof. vm_compute. reflexivity. Qed.

(** * Properties of the Airflow exporter *)

Import Airflow.

(** ** Strings *)

Lemma append_cons (c : ascii) (s t : string) :
  String c s +:+ t = String c (s +:+ t).
Proof. reflexivity. Qed.

Lemma append_nil_r (s : string) : s +:+ "" = s.
Proof.
  induction s as [|c s IH]; [reflexivity|].
  rewrite append_cons, IH. reflexivity.
Qed.

Lemma append_assoc (a b c : string) : (a +:+ b) +:+ c = a +:+ (b +:+ c).
Proof.
  induction a as [|x a IH]; [reflexivity|].
  rewrite !append_cons, IH. reflexivity.
Qed.

Lemma prefix_append (s t : string) : String.prefix s (s +:+ t) = true.
Proof.
  induction s as [|c s IH]; [destruct t; reflexivity|].
  rewrite append_cons. simpl.
  destruct (ascii_dec c c); [exact IH | contradiction].
Qed.

Lemma prefix_refl (s : string) : String.prefix s s = true.
Proof. rewrite <- (append_nil_r s) at 2. apply prefix_append. Qed.

Lemma contains_here (s t : string) : contains (s +:+ t) s = true.
Proof.
  generalize (prefix_append s t).
  destruct (s +:+ t); simpl; intros ->; reflexivity.
Qed.

Lemma contains_later (s t needle : string) :
  contains t needle = true -> contains (s +:+ t) needle = true.
Proof.
  intros H. induction s as [|c s IH]; [exact H|].
  rewrite append_cons. simpl. rewrite IH.
  match goal with |- (if ?b then _ else _) = _ => destruct b end;
    reflexivity.
Qed.

(** A joined list has each of its items in it. *)
Lemma contains_join (sep : string) (l : list string) (p : string) :
  In p l -> contains (join sep l) p = true.
Proof.
  induction l as [|x l IH]; [intros []|].
  intros Hin. destruct l as [|y l].
  - destruct Hin as [->|[]]. simpl.
    rewrite <- (append_nil_r p) at 1. apply contains_here.
  - change (join sep (x :: y :: l)) with (x +:+ sep +:+ join sep (y :: l)).
    destruct Hin as [->|Hin].
    + apply contains_here.
    + apply contains_later, contains_later, IH, Hin.
Qed.

(** ** Validation *)

Lemma nested_under_prefix (root p : string) :
  nested_under root p -> startswith p root = true.
Proof.
  unfold startswith. intros [->|[rest ->]].
  - apply prefix_refl.
  - apply prefix_append.
Qed.

Lemma filter_sublist {A} (f : A -> bool) (l : list A) :
  sublist (List.filter f l) l.
Proof.
  induction l as [|x l IH]; simpl; [constructor|].
  destruct (f x); constructor; exact IH.
Qed.

Lemma in_products dag name product path :
  In (name, product) dag -> In path (product_paths product) ->
  In path (products dag).
Proof.
  intros Hin Hpath. unfold products. apply in_flat_map.
  exists (name, product). split; assumption.
Qed.

(** C6, as the specification words it, fails: the error lists the paths of
    the products and does not name the task. *)
Lemma validation_error_omits_task_name :
  exists msg,
    _validate (Sample.resolve_in "/ws") "airflow" false
      [("load", File "/ws/out/data.csv")] = Raise (ValueError msg) /\
    contains msg "/ws/out/data.csv" = true /\
    contains msg "load" = false.
Proof.
  eexists. split; [reflexivity|]. split; vm_compute; reflexivity.
Qed.

(** The test is on the text of the paths: a folder next to the project
    root whose name starts like it is rejected too. *)
Example sibling_directory_rejected :
  exists msg,
    _validate (Sample.resolve_in "/ws") "airflow" false
      [("load", File "/ws2/out/data.csv")] = Raise (ValueError msg).
Proof. eexists. reflexivity. Qed.

(** C6, amended. A product whose resolved path is the project root or lies
    under it makes [_validate] raise a [ValueError] whose message lists that
    product's declared path among the rejected ones; when the resolved path
    of no product starts with the text of the project root, [_validate]
    passes. *)
Theorem product_under_root_rejected
    (resolve : string -> string) (env_name : string) (env_exists : bool)
    (dag : ProductDag) :
  (forall name product path,
      In (name, product) dag ->
      In path (product_paths product) ->
      nested_under (project_root resolve) (resolve path) ->
      exists msg,
        _validate resolve env_name env_exists dag = Raise (ValueError msg) /\
        msg = invalid_msg
                (if env_exists then Some ("env." +:+ env_name +:+ ".yaml")
                 else None)
                (project_root resolve) (products_invalid resolve dag) /\
        In path (products_invalid resolve dag) /\
        contains msg path = true) /\
  ((forall path,
       In path (products dag) ->
       startswith (resolve path) (project_root resolve) = false) ->
   _validate resolve env_name env_exists dag = Ok tt).
Proof.
  split.
  - intros name product path Hin Hpath Hnested.
    assert (In path (products_invalid resolve dag)) as Hinv.
    { unfold products_invalid. apply filter_In.
      split; [eapply in_products; eassumption|].
      apply nested_under_prefix. exact Hnested. }
    unfold _validate.
    destruct (products_invalid resolve dag) as [|x l] eqn:Heq; [destruct Hinv|].
    eexists. split; [reflexivity|]. split; [reflexivity|].
    split; [exact Hinv|].
    unfold invalid_msg. do 16 apply contains_later.
    apply contains_join. exact Hinv.
  - intros Hout. unfold _validate, products_invalid.
    assert (List.filter (under_root resolve) (products dag) = [])
      as ->; [|reflexivity].
    induction (products dag) as [|p l IH]; [reflexivity|].
    simpl. unfold under_root at 1. rewrite Hout by (left; reflexivity).
    apply IH. intros path Hin. apply Hout. right. exact Hin.
Qed.

Lemma product_under_root_rejected_witness :
  exists msg,
    _validate (Sample.resolve_in "/ws") "airflow" false
      [("load", File "out/data.csv")] = Raise (ValueError msg) /\
    msg = invalid_msg None (project_root (Sample.resolve_in "/ws"))
            (products_invalid (Sample.resolve_in "/ws")
               [("load", File "out/data.csv")]) /\
    In "out/data.csv"
       (products_invalid (Sample.resolve_in "/ws")
          [("load", File "out/data.csv")]) /\
    contains msg "out/data.csv" = true.
Proof.
  apply (proj1 (product_under_root_rejected (Sample.resolve_in "/ws")
                  "airflow" false [("load", File "out/data.csv")])
           "load" (File "out/data.csv") "out/data.csv").
  - left. reflexivity.
  - left. reflexivity.
  - right. exists "out/data.csv". reflexivity.
Defined.

(** C7. The one check of [_validate] is made on every product of every
    task: the rejected products are all those, and only those, whose
    resolved path starts with the project root, in the order of the DAG;
    when there is one or more, a single [ValueError] is raised whose message
    has all of them, one per line; when there is none, validation passes. *)
Theorem violations_reported_together
    (resolve : string -> string) (env_name : string) (env_exists : bool)
    (dag : ProductDag) :
  (forall path,
      In path (products_invalid resolve dag) <->
      In path (products dag) /\
      startswith (resolve path) (project_root resolve) = true) /\
  sublist (products_invalid resolve dag) (products dag) /\
  match _validate resolve env_name env_exists dag with
  | Ok _ => products_invalid resolve dag = []
  | Raise e =>
      products_invalid resolve dag <> [] /\
      e = ValueError
            (invalid_msg
               (if env_exists then Some ("env." +:+ env_name +:+ ".yaml")
                else None)
               (project_root resolve) (products_invalid resolve dag)) /\
      exists header,
        e = ValueError
              (header +:+ join (str1 newline) (products_invalid resolve dag))
        /\
        forall path,
          In path (products_invalid resolve dag) ->
          contains
            (header +:+ join (str1 newline) (products_invalid resolve dag))
            path = true
  end.
Proof.
  split;
    [intros path; exact (filter_In (under_root resolve) path (products dag))|].
  split; [apply filter_sublist|].
  unfold _validate.
  destruct (products_invalid resolve dag) as [|x l] eqn:Heq; [reflexivity|].
  split; [discriminate|]. split; [reflexivity|].
  unfold invalid_msg.
  eexists. split.
  - f_equal. rewrite <- !append_assoc. reflexivity.
  - intros path Hin. apply contains_later, contains_join, Hin.
Qed.

Lemma violations_reported_together_witness :
  products_invalid (Sample.resolve_in "/ws")
    [("load", File "out/data.csv");
     ("fit", MetaProduct ["/tmp/model.pkl"; "/ws/report.html"])]
  = ["out/data.csv"; "/ws/report.html"] /\
  exists msg,
    _validate (Sample.resolve_in "/ws") "airflow" true
      [("load", File "out/data.csv");
       ("fit", MetaProduct ["/tmp/model.pkl"; "/ws/report.html"])]
    = Raise (ValueError msg) /\
    contains msg ("out/data.csv" +:+ str1 newline +:+ "/ws/report.html")
    = true.
Proof.
  split; [reflexivity|].
  pose proof (violations_reported_together (Sample.resolve_in "/ws")
                "airflow" true
                [("load", File "out/data.csv");
                 ("fit", MetaProduct ["/tmp/model.pkl"; "/ws/report.html"])])
    as (_ & _ & H).
  destruct (_validate _ _ _ _) as [[]|e]; [discriminate H|].
  destruct H as (_ & -> & _).
  eexists. split; [reflexivity|]. vm_compute. reflexivity.
Defined.

(** ** Copying the project *)

Lemma name_in_fst (name : string) (l : list (string * Entry)) (e : Entry) :
  In (name, e) l -> name_in name (map fst l) = true.
Proof.
  intros Hin. unfold name_in. apply existsb_exists. exists name.
  split; [|apply String.eqb_refl].
  apply in_map_iff. exists (name, e). split; [reflexivity | exact Hin].
Qed.

(** When every name is ignored, nothing is copied. *)
Lemma copy_entries_all_ignored copy (names : list string)
    (l : list (string * Entry)) :
  (forall name e, In (name, e) l -> name_in name names = true) ->
  copy_entries copy names l = [].
Proof.
  induction l as [|[name child] rest IH]; intros Hall; [reflexivity|].
  simpl. rewrite (Hall name child) by (left; reflexivity).
  apply IH. intros n e Hin. apply (Hall n e). right. exact Hin.
Qed.

(** An entry found in the copy is the copy of an entry of the source. *)
Lemma find_copy_entries copy names (l : list (string * Entry)) name n c' :
  List.find (fun ne => String.eqb name (fst ne)) (copy_entries copy names l)
    = Some (n, c') ->
  n = name /\ exists c, In (n, c) l /\ c' = copy n c.
Proof.
  induction l as [|[m child] rest IH]; simpl; [discriminate|].
  destruct (name_in m names).
  - intros H. destruct (IH H) as (Hn & c & Hin & Hc).
    split; [exact Hn|]. exists c. split; [right; exact Hin | exact Hc].
  - simpl. destruct (String.eqb name m) eqn:Hm.
    + intros [= <- <-]. apply String.eqb_eq in Hm.
      split; [symmetry; exact Hm|]. exists child.
      split; [left; reflexivity | reflexivity].
    + intros H. destruct (IH H) as (Hn & c & Hin & Hc).
      split; [exact Hn|]. exists c. split; [right; exact Hin | exact Hc].
Qed.

(** A directory of the copy whose path starts with [sub_dir] is empty. *)
Lemma copytree_prefix_empty env_parts project_name parts :
  forall src e entries,
    lookup_path parts (copytree (ignore env_parts project_name) src e)
      = Some (DirEntry entries) ->
    startswith (path_str (src ++ parts)) (sub_dir env_parts project_name)
      = true ->
    entries = [].
Proof.
  induction parts as [|name rest IH]; intros src e entries Hlook Hpre.
  - rewrite app_nil_r in Hpre. simpl in Hlook.
    destruct e as [content|es]; simpl in Hlook; [discriminate Hlook|].
    injection Hlook as <-. unfold ignore. rewrite Hpre.
    apply copy_entries_all_ignored. intros n c Hin.
    eapply name_in_fst. exact Hin.
  - destruct e as [content|es]; simpl in Hlook; [discriminate Hlook|].
    destruct (List.find _ _) as [[n c']|] eqn:Hfind; [|discriminate Hlook].
    apply find_copy_entries in Hfind as (-> & c & _ & ->).
    apply (IH _ _ _ Hlook).
    rewrite <- app_assoc. exact Hpre.
Qed.

Lemma lookup_path_app (p1 p2 : list string) (e : Entry) :
  lookup_path (p1 ++ p2) e =
  match lookup_path p1 e with
  | Some e' => lookup_path p2 e'
  | None => None
  end.
Proof.
  revert e. induction p1 as [|name rest IH]; intros e; [reflexivity|].
  simpl. destruct e as [content|es]; [reflexivity|].
  destruct (List.find _ _) as [[n c]|]; [apply IH | reflexivity].
Qed.

Lemma rel_parts env_parts project_name :
  exists next rest,
    rel env_parts project_name
    = [sub_dir env_parts project_name] ++ next :: rest.
Proof.
  unfold sub_dir, rel. destruct env_parts as [|p ps]; simpl.
  - eexists _, _. reflexivity.
  - destruct ps as [|q qs]; simpl; eexists _, _; reflexivity.
Qed.

(** C10, as it is worded, fails: the environment folder, whose path starts
    with [sub_dir], is in the copy, as an empty directory. *)
Lemma env_folder_copied_empty :
  lookup_path ["airflow"] (_submit ["airflow"] "proj" Sample.project)
    = Some (DirEntry []) /\
  startswith (path_str ["airflow"]) (sub_dir ["airflow"] "proj") = true.
Proof. split; vm_compute; reflexivity. Qed.

(** C10, amended. In the copy, every directory whose path from the project
    root starts with [sub_dir] is empty: none of its entries is copied. So
    nothing of the environment folder is copied but the folder itself, and
    the destination [<env_name>/ploomber/<project_name>] is not in the
    copy. *)
Theorem copy_skips_environment_folder
    (env_parts : list string) (project_name : string)
    (project : list (string * Entry)) :
  (forall parts entries,
      lookup_path parts (_submit env_parts project_name project)
        = Some (DirEntry entries) ->
      startswith (path_str parts) (sub_dir env_parts project_name) = true ->
      entries = []) /\
  (forall parts name,
      startswith (path_str parts) (sub_dir env_parts project_name) = true ->
      lookup_path (parts ++ [name]) (_submit env_parts project_name project)
        = None) /\
  lookup_path (rel env_parts project_name)
    (_submit env_parts project_name project) = None.
Proof.
  assert (forall parts name,
      startswith (path_str parts) (sub_dir env_parts project_name) = true ->
      lookup_path (parts ++ [name]) (_submit env_parts project_name project)
        = None) as Hbelow.
  { intros parts name Hpre. rewrite lookup_path_app.
    destruct (lookup_path parts _) as [[content|entries]|] eqn:Hlook;
      [reflexivity| |reflexivity].
    unfold _submit in Hlook.
    rewrite (copytree_prefix_empty _ _ _ _ _ _ Hlook Hpre). reflexivity. }
  split; [|split; [exact Hbelow|]].
  - intros parts entries Hlook Hpre. unfold _submit in Hlook.
    exact (copytree_prefix_empty _ _ _ _ _ _ Hlook Hpre).
  - destruct (rel_parts env_parts project_name) as (next & rest & ->).
    change ([sub_dir env_parts project_name] ++ next :: rest)
      with (([sub_dir env_parts project_name] ++ [next]) ++ rest).
    rewrite lookup_path_app, Hbelow; [reflexivity|].
    unfold startswith. simpl. apply prefix_refl.
Qed.

(** ** Declaring the Airflow DAG *)

Lemma name_in_spec (name : string) (names : list string) :
  name_in name names = true <-> In name names.
Proof.
  unfold name_in. rewrite existsb_exists. split.
  - intros (x & Hin & Heq). apply String.eqb_eq in Heq. subst. exact Hin.
  - intros Hin. exists name. split; [exact Hin | apply String.eqb_refl].
Qed.

Lemma get_task_ok (d : AirflowDAG) (id : string) :
  In id (map fst (task_dict d)) -> exists op, get_task d id = Ok op.
Proof.
  unfold get_task. induction (task_dict d) as [|[k op] l IH]; simpl.
  - intros [].
  - intros [->|Hin].
    + rewrite String.eqb_refl. eauto.
    + destruct (String.eqb id k); [eauto | apply IH, Hin].
Qed.

Lemma alter_task_keys f id (l : list (string * Operator)) :
  map fst (alter_task f id l) = map fst l.
Proof.
  unfold alter_task. rewrite map_map. apply map_ext.
  intros [k op]. simpl. destruct (String.eqb id k); reflexivity.
Qed.

Lemma set_upstream_keys d task up :
  map fst (task_dict (set_upstream d task up)) = map fst (task_dict d).
Proof. simpl. rewrite !alter_task_keys. reflexivity. Qed.

Lemma set_upstream_view d task up :
  upstream_view (set_upstream d task up) =
  map (fun kv : string * gset string =>
         if String.eqb task kv.1 then (kv.1, {[up]} ∪ kv.2) else kv)
      (upstream_view d).
Proof.
  unfold upstream_view, set_upstream, alter_task. simpl.
  rewrite !map_map. apply map_ext. intros [k op]. simpl.
  destruct (String.eqb task k); simpl; destruct (String.eqb up k);
    reflexivity.
Qed.

Lemma link_upstream_spec task upstream :
  forall d,
    (forall up, In up upstream -> In up (map fst (task_dict d))) ->
    exists d',
      link_upstream task upstream d = Ok d' /\
      map fst (task_dict d') = map fst (task_dict d) /\
      upstream_view d' =
        map (fun kv : string * gset string =>
               if String.eqb task kv.1
               then (kv.1, list_to_set upstream ∪ kv.2) else kv)
            (upstream_view d).
Proof.
  induction upstream as [|up rest IH]; intros d Hin.
  - exists d. split; [reflexivity|]. split; [reflexivity|].
    rewrite <- (map_id (upstream_view d)) at 1. apply map_ext.
    intros [k ups]. simpl. destruct (String.eqb task k); [|reflexivity].
    f_equal. set_solver.
  - simpl. destruct (get_task_ok d up) as [op ->];
      [apply Hin; left; reflexivity|]. simpl.
    destruct (IH (set_upstream d task up)) as (d' & Hd' & Hkeys & Hview).
    { intros u Hu. rewrite set_upstream_keys. apply Hin. right. exact Hu. }
    exists d'. split; [exact Hd'|].
    split; [rewrite Hkeys; apply set_upstream_keys|].
    rewrite Hview, set_upstream_view, map_map. apply map_ext.
    intros [k ups]. simpl. destruct (String.eqb task k) eqn:Hk; simpl.
    + rewrite Hk. f_equal. set_solver.
    + rewrite Hk. reflexivity.
Qed.

Lemma link_tasks_spec items :
  forall d,
    (forall name upstream, In (name, upstream) items ->
        In name (map fst (task_dict d)) /\
        forall up, In up upstream -> In up (map fst (task_dict d))) ->
    exists d',
      link_tasks items d = Ok d' /\
      map fst (task_dict d') = map fst (task_dict d) /\
      upstream_view d' =
        map (fun kv : string * gset string => (kv.1, links items kv.1 ∪ kv.2))
            (upstream_view d).
Proof.
  induction items as [|[name upstream] rest IH]; intros d Hin.
  - exists d. split; [reflexivity|]. split; [reflexivity|].
    rewrite <- (map_id (upstream_view d)) at 1. apply map_ext.
    intros [k ups]. simpl. f_equal. set_solver.
  - simpl. destruct (Hin name upstream) as [Hname Hups];
      [left; reflexivity|].
    destruct (get_task_ok d name Hname) as [op ->]. simpl.
    destruct (link_upstream_spec name upstream d Hups)
      as (d1 & -> & Hkeys1 & Hview1). simpl.
    destruct (IH d1) as (d' & Hd' & Hkeys & Hview).
    { intros n ups Hn. rewrite Hkeys1. apply (Hin n ups). right. exact Hn. }
    exists d'. split; [exact Hd'|]. split; [congruence|].
    rewrite Hview, Hview1, map_map. apply map_ext.
    intros [k ups]. simpl. destruct (String.eqb name k); simpl.
    + f_equal. set_solver.
    + f_equal. set_solver.
Qed.

Lemma add_tasks_spec generate_script operator_refused script names :
  (forall name, In name names ->
     generate_script ("ploomber task " +:+ name) = Ok (script name)) ->
  (forall name, In name names -> operator_refused name = None) ->
  forall d,
    NoDup (map fst (task_dict d) ++ names) ->
    exists d',
      add_tasks generate_script operator_refused names d = Ok d' /\
      dag_id d' = dag_id d /\
      task_dict d' =
        task_dict d ++
        map (fun name => (name, new_operator name (script name))) names.
Proof.
  induction names as [|name rest IH]; intros Hscript Hok d Hnd.
  - exists d. simpl. rewrite app_nil_r. auto.
  - cbn [add_tasks]. rewrite Hscript by (left; reflexivity).
    cbn [mbind result_bind]. unfold BashOperator.
    rewrite Hok by (left; reflexivity).
    destruct (has_task d name) eqn:Hhas.
    + exfalso. apply name_in_spec in Hhas.
      apply NoDup_app in Hnd as (_ & Hdisj & _).
      apply (Hdisj name); [apply list_elem_of_In; exact Hhas|].
      left.
    + cbn [mbind result_bind].
      destruct (IH (fun n Hn => Hscript n (or_intror Hn))
                   (fun n Hn => Hok n (or_intror Hn))
                   {| dag_id := dag_id d;
                      task_dict := task_dict d ++
                        [(name, new_operator name (script name))] |})
        as (d' & Hd' & Hid & Hdict).
      { simpl. rewrite map_app. simpl. rewrite <- app_assoc. exact Hnd. }
      exists d'. split; [exact Hd'|]. split; [exact Hid|].
      rewrite Hdict. simpl. rewrite <- app_assoc. reflexivity.
Qed.

(** A task id that Airflow refuses stops the first loop. *)
Lemma add_tasks_refused generate_script operator_refused names name e :
  In name names ->
  operator_refused name = Some e ->
  forall d,
    exists e', add_tasks generate_script operator_refused names d = Raise e'.
Proof.
  intros Hin Hrefused.
  induction names as [|task_name rest IH]; intros d; [destruct Hin|].
  cbn [add_tasks].
  destruct (generate_script _) as [cmd|e1]; [|eexists; reflexivity].
  cbn [mbind result_bind]. unfold BashOperator.
  destruct (operator_refused task_name) as [e2|] eqn:Htask;
    [eexists; reflexivity|].
  destruct (has_task d task_name); [eexists; reflexivity|].
  cbn [mbind result_bind]. apply IH.
  destruct Hin as [->|Hin]; [congruence | exact Hin].
Qed.

Lemma links_absent items k :
  ~ In k (map fst items) -> links items k = ∅.
Proof.
  induction items as [|[name upstream] rest IH]; intros Hk; [reflexivity|].
  simpl in *. destruct (String.eqb name k) eqn:Heq.
  - apply String.eqb_eq in Heq. tauto.
  - rewrite IH by tauto. apply (left_id_L ∅ (∪)).
Qed.

Lemma links_present items name upstream :
  NoDup (map fst items) -> In (name, upstream) items ->
  links items name = list_to_set upstream.
Proof.
  induction items as [|[n ups] rest IH]; intros Hnd Hin; [destruct Hin|].
  simpl in Hnd. apply NoDup_cons in Hnd as [Hn Hnd]. simpl.
  destruct Hin as [[= -> ->]|Hin].
  - rewrite String.eqb_refl, links_absent.
    + apply (right_id_L ∅ (∪)).
    + intros H. apply Hn, list_elem_of_In, H.
  - destruct (String.eqb n name) eqn:Heq.
    + apply String.eqb_eq in Heq. subst n. exfalso.
      apply Hn, list_elem_of_In, in_map_iff.
      exists (name, upstream). split; [reflexivity | exact Hin].
    + rewrite IH by assumption. apply (left_id_L ∅ (∪)).
Qed.

Lemma edges_of_view d :
  edges d =
  flat_map (fun kv : string * gset string =>
              map (fun up => (up, kv.1)) (elements kv.2))
           (upstream_view d).
Proof.
  unfold edges, upstream_view.
  induction (task_dict d) as [|[k op] l IH]; [reflexivity|].
  simpl. rewrite IH. reflexivity.
Qed.

(** C2, as it is worded, fails: for a graph with a task whose name Airflow
    does not take as a task id, here one with a space in it,
    [_dag_to_airflow] raises and declares nothing. *)
Lemma refused_task_name_not_declared :
  NoDup (map fst [("a b", @nil string)]) /\
  _dag_to_airflow (fun command => Ok command) Sample.key_refused
    Sample.key_refused [("a b", [])] "proj"
  = Raise (AirflowException
             ("The key (a b) has to be made of alphanumeric " +:+
              "characters, dashes, dots and underscores exclusively")).
Proof.
  split; [|vm_compute; reflexivity].
  apply (bool_decide_unpack _). vm_compute. reflexivity.
Qed.

(** C2, amended. For a DAG whose tasks have distinct names and whose
    upstream names are tasks of the DAG: when Airflow takes the name of the
    DAG and the names of the tasks as ids and a script is generated for each
    task, [_dag_to_airflow] returns an Airflow DAG with the tasks of the
    input, once each and in the same order; the upstream set of each task is
    the set of its upstream names, and the edges are the upstream relations
    of the input, each once. When Airflow refuses the name of the DAG or of
    a task, [_dag_to_airflow] raises. *)
Theorem declared_dag_matches_input
    (generate_script : string -> result string)
    (dag_refused operator_refused : string -> option exn)
    (script : string -> string)
    (dag : list (string * list string)) (dag_name : string) :
  NoDup (map fst dag) ->
  (forall name upstream, In (name, upstream) dag -> NoDup upstream) ->
  (forall name upstream up,
      In (name, upstream) dag -> In up upstream -> In up (map fst dag)) ->
  (dag_refused dag_name = None ->
   (forall name, In name (map fst dag) -> operator_refused name = None) ->
   (forall name, In name (map fst dag) ->
      generate_script ("ploomber task " +:+ name) = Ok (script name)) ->
   exists d,
     _dag_to_airflow generate_script dag_refused operator_refused dag
       dag_name = Ok d /\
     map fst (task_dict d) = map fst dag /\
     length (task_dict d) = length dag /\
     upstream_view d =
       map (fun item : string * list string =>
              (item.1, list_to_set item.2)) dag /\
     edges d ≡ₚ dag_edges dag /\
     length (edges d) = length (dag_edges dag)) /\
  (forall e, dag_refused dag_name = Some e ->
     _dag_to_airflow generate_script dag_refused operator_refused dag
       dag_name = Raise e) /\
  (forall name e,
      In name (map fst dag) -> operator_refused name = Some e ->
      exists e',
        _dag_to_airflow generate_script dag_refused operator_refused dag
          dag_name = Raise e').
Proof.
  intros Hnd Hups Hclosed. split; [|split].
  - intros Hdag Hok Hscript. unfold _dag_to_airflow, DAG. rewrite Hdag.
    cbn [mbind result_bind].
    destruct (add_tasks_spec generate_script operator_refused script
                (map fst dag) Hscript Hok
                {| dag_id := dag_name; task_dict := [] |})
      as (d1 & -> & _ & Hdict1); [exact Hnd|].
    simpl in Hdict1. cbn [mbind result_bind].
    assert (map fst (task_dict d1) = map fst dag) as Hkeys1.
    { rewrite Hdict1, !map_map. reflexivity. }
    destruct (link_tasks_spec dag d1) as (d & Hd & Hkeys & Hview).
    { intros name upstream Hin. rewrite Hkeys1. split.
      - apply in_map_iff. exists (name, upstream). auto.
      - intros up Hup. eapply Hclosed; eassumption. }
    assert (upstream_view d =
            map (fun item : string * list string =>
                   (item.1, list_to_set item.2)) dag) as Hview'.
    { rewrite Hview. unfold upstream_view. rewrite Hdict1, !map_map.
      apply map_ext_in. intros [name upstream] Hin. simpl.
      rewrite (links_present dag name upstream Hnd Hin).
      f_equal. apply (right_id_L ∅ (∪)). }
    assert (edges d ≡ₚ dag_edges dag) as Hedges.
    { rewrite edges_of_view, Hview'. unfold dag_edges.
      clear -Hups. induction dag as [|[name upstream] rest IH];
        [reflexivity|].
      simpl. apply Permutation_app.
      - apply Permutation_map, elements_list_to_set.
        apply (Hups name upstream). left. reflexivity.
      - apply IH. intros n ups Hin. apply (Hups n ups). right. exact Hin. }
    exists d. split; [exact Hd|]. split; [congruence|].
    split; [rewrite <- (length_map fst), Hkeys, Hkeys1; apply length_map|].
    split; [exact Hview'|]. split; [exact Hedges|].
    apply Permutation_length, Hedges.
  - intros e Hdag. unfold _dag_to_airflow, DAG. rewrite Hdag. reflexivity.
  - intros name e Hin Hrefused. unfold _dag_to_airflow, DAG.
    destruct (dag_refused dag_name); [eexists; reflexivity|].
    cbn [mbind result_bind].
    destruct (add_tasks_refused generate_script operator_refused
                (map fst dag) name e Hin Hrefused
                {| dag_id := dag_name; task_dict := [] |}) as [e' ->].
    eexists. reflexivity.
Qed.

Lemma abc_upstream_nodup :
  forall name upstream, In (name, upstream) Sample.abc -> NoDup upstream.
Proof.
  intros name upstream Hin. simpl in Hin.
  destruct Hin as [[= <- <-]|[[= <- <-]|[[= <- <-]|[]]]];
    apply (bool_decide_unpack _); vm_compute; reflexivity.
Defined.

Lemma abc_keys_taken :
  forall name, In name (map fst Sample.abc) -> Sample.key_refused name = None.
Proof.
  intros name Hin. simpl in Hin.
  destruct Hin as [<-|[<-|[<-|[]]]]; reflexivity.
Defined.

Lemma declared_dag_matches_input_witness :
  exists d,
    _dag_to_airflow (fun command => Ok command) Sample.key_refused
      Sample.key_refused Sample.abc "proj" = Ok d /\
    map fst (task_dict d) = ["a"; "b"; "c"] /\
    length (task_dict d) = 3 /\
    upstream_view d =
      [("a", ∅); ("b", {["a"]} ∪ ∅); ("c", {["a"]} ∪ ({["b"]} ∪ ∅))] /\
    edges d ≡ₚ [("a", "b"); ("a", "c"); ("b", "c")] /\
    length (edges d) = 3.
Proof.
  apply (proj1 (declared_dag_matches_input (fun command => Ok command)
                  Sample.key_refused Sample.key_refused
                  (fun name => "ploomber task " +:+ name) Sample.abc "proj"
                  abc_nodup abc_upstream_nodup abc_closed)).
  - reflexivity.
  - exact abc_keys_taken.
  - intros name _. reflexivity.
Defined.

(** The tasks of the example after [_dag_to_airflow], with the sizes of
    their upstream and downstream sets. *)
Example declare_abc :
  match _dag_to_airflow (fun command => Ok command) Sample.key_refused
          Sample.key_refused Sample.abc "proj" with
  | Ok d =>
      map (fun kv : string * Operator =>
             (kv.1, bash_command kv.2,
              elements (upstream_task_ids kv.2),
              size (downstream_task_ids kv.2)))
          (task_dict d)
  | Raise _ => []
  end
  = [("a", "ploomber task a", [], 2);
     ("b", "ploomber task b", ["a"], 1);
     ("c", "ploomber task c", elements ({["a"; "b"]} : gset string), 0)].
Proof. vm_compute. reflexivity. Qed.

Lemma copy_skips_environment_folder_witness :
  lookup_path ["airflow"; "dags"]
    (_submit ["airflow"] "proj" Sample.project) = None.
Proof.
  apply (proj1 (proj2 (copy_skips_environment_folder ["airflow"] "proj"
                         Sample.project)) ["airflow"] "dags").
  vm_compute. reflexivity.
Defined.

(** The copy of the sample project. *)
Example copy_of_project :
  _submit ["airflow"] "proj" Sample.project
  = DirEntry
      [("airflow", DirEntry []);
       ("pipeline.yaml", FileEntry "tasks");
       ("src", DirEntry [("load.py", FileEntry "code")])].
Proof. vm_compute. reflexivity. Qed.

(** * Further properties *)

(** ** More on [submit_dag] *)

Section batch_more.

Variable submit_job : list JobRequest -> JobRequest -> Response.
Variable jobDefinitionArn : string.
Variable out : option RunsUpdate.
Variable args : list pyval.
Variable job_queue : string.

Abbreviation ploomber_task := (ploomber_task out).
Abbreviation request := (request jobDefinitionArn args job_queue).
Abbreviation body := (body submit_job jobDefinitionArn out args job_queue).
Abbreviation loop := (loop submit_job jobDefinitionArn out args job_queue).

Lemma loop_app_split (l1 l2 : Tasks) (st : LoopState) :
  loop (l1 ++ l2) st =
  match raised (loop l1 st) with
  | None => loop l2 (final (loop l1 st))
  | Some _ => loop l1 st
  end.
Proof.
  revert st. induction l1 as [|item rest IH]; intros st; [reflexivity|].
  simpl. destruct (raised (body st item)) eqn:Hr.
  - rewrite Hr. reflexivity.
  - apply IH.
Qed.


Lemma depends_on_missing ids upstream u deps :
  In u upstream -> ids !! u = None -> depends_on ids upstream <> Ok deps.
Proof.
  intros Hin Hu Hok. apply depends_on_ok in Hok.
  revert deps Hok. induction upstream as [|v rest IH]; intros deps Hok;
    [destruct Hin|].
  inversion Hok as [|? d ? ds Hv Hrest]; subst.
  destruct Hin as [->|Hin]; [congruence | eapply IH; eassumption].
Qed.


Lemma requested_snoc st ids req resp cm :
  requested {| job_ids := ids; calls := calls st ++ [(req, resp)];
               cmdr := cm |}
  = requested st ++ [jobName req].
Proof. unfold requested. simpl. rewrite map_app. reflexivity. Qed.


(** A task with an upstream name that no earlier task has stops the loop
    before it is sent. *)
Lemma loop_stops_before pre name upstream post u :
  In u upstream ->
  forall st,
    job_ids st !! u = None ->
    ~ In u (map fst pre) ->
    raised (loop (pre ++ (name, upstream) :: post) st) <> None /\
    forall n,
      In n (requested (final (loop (pre ++ (name, upstream) :: post) st))) ->
      In n (requested st) \/ In n (map fst pre).
Proof.
  intros Hu. induction pre as [|[n ups] pre IH]; intros st Hnone Hnotin.
  - simpl app. rewrite loop_cons. body_split st name upstream
      ipattern:([k' Hk | task_cmd deps err Hcmd Hdeps Hresp
                 | task_cmd deps id Hcmd Hdeps Hresp]).
    + split; [discriminate | auto].
    + exfalso. eapply depends_on_missing; eassumption.
    + exfalso. eapply depends_on_missing; eassumption.
  - simpl app. rewrite loop_cons. body_split st n ups
      ipattern:([k' Hk | task_cmd deps err Hcmd Hdeps Hresp
                 | task_cmd deps id Hcmd Hdeps Hresp]).
    + split; [discriminate | auto].
    + split; [discriminate|]. intros m. rewrite requested_snoc.
      intros [Hm|[<-|[]]]%in_app_or; [left; exact Hm|].
      right. left. reflexivity.
    + assert (n <> u) as Hne by (intros ->; apply Hnotin; left; reflexivity).
      destruct (IH {| job_ids := <[n:=id]> (job_ids st);
                      calls := calls st ++
                               [(request n deps task_cmd, JobId id)];
                      cmdr := cmdr st ++ [Print (submitted_msg n)] |})
        as [Hraised Hreq].
      { simpl. rewrite lookup_insert_ne; [exact Hnone | exact Hne]. }
      { intros H. apply Hnotin. right. exact H. }
      split; [exact Hraised|]. intros m Hm.
      apply Hreq in Hm. rewrite requested_snoc in Hm.
      destruct Hm as [[Hm|[<-|[]]]%in_app_or|Hm].
      * left. exact Hm.
      * right. left. reflexivity.
      * right. right. exact Hm.
Qed.

Lemma answered_snoc st ids req resp cm :
  answered {| job_ids := ids; calls := calls st ++ [(req, resp)];
              cmdr := cm |}
  = answered st ++
    match resp with
    | JobId id => [(jobName req, id)]
    | Failed _ => []
    end.
Proof.
  unfold answered, records. simpl. rewrite flat_map_app, map_app. simpl.
  destruct resp; reflexivity.
Qed.

(** [job_ids] holds the answers of the backend, and nothing else. *)
Lemma loop_answers items :
  NoDup (map fst items) ->
  forall st,
    (forall name, In name (map fst items) -> job_ids st !! name = None) ->
    (forall name id,
        job_ids st !! name = Some id <-> In (name, id) (answered st)) ->
    forall name id,
      job_ids (final (loop items st)) !! name = Some id <->
      In (name, id) (answered (final (loop items st))).
Proof.
  induction items as [|[n ups] rest IH]; intros Hnd st Hfresh Hst;
    [exact Hst|].
  simpl in Hnd. apply NoDup_cons in Hnd as [Hn Hnd].
  rewrite loop_cons. body_split st n ups
    ipattern:([k' Hk | task_cmd deps err Hcmd Hdeps Hresp
               | task_cmd deps id' Hcmd Hdeps Hresp]).
  - exact Hst.
  - intros name id. rewrite answered_snoc, app_nil_r. simpl. apply Hst.
  - apply (IH Hnd).
    + intros name Hname. simpl. rewrite lookup_insert_ne.
      * apply Hfresh. right. exact Hname.
      * intros ->. apply Hn, list_elem_of_In, Hname.
    + intros name id. rewrite answered_snoc. simpl. rewrite lookup_insert.
      destruct (decide (n = name)) as [->|Hne].
      * split.
        -- intros [= ->]. apply in_or_app. right. left. reflexivity.
        -- intros [Hin|[[= ->]|[]]]%in_app_or; [|reflexivity].
           apply Hst in Hin. rewrite Hfresh in Hin by (left; reflexivity).
           discriminate Hin.
      * rewrite Hst. split.
        -- intros Hin. apply in_or_app. left. exact Hin.
        -- intros [Hin|[[= -> _]|[]]]%in_app_or; [exact Hin | congruence].
Qed.

Lemma records_snoc st ids req resp cm :
  records {| job_ids := ids; calls := calls st ++ [(req, resp)];
             cmdr := cm |}
  = records st ++
    match resp with
    | JobId id => [{| node_name := jobName req; backend_job_id := id;
                      dependency_ids := dependsOn req |}]
    | Failed _ => []
    end.
Proof.
  unfold records. simpl. rewrite flat_map_app. simpl.
  destruct resp; reflexivity.
Qed.

(** One line is printed for each answered call, in the same order. *)
Lemma loop_lines items :
  forall st shown,
    cmdr st = shown ++
      map (fun r => Print (submitted_msg (node_name r))) (records st) ->
    cmdr (final (loop items st)) = shown ++
      map (fun r => Print (submitted_msg (node_name r)))
          (records (final (loop items st))).
Proof.
  induction items as [|[n ups] rest IH]; intros st shown Hst; [exact Hst|].
  rewrite loop_cons. body_split st n ups
    ipattern:([k' Hk | task_cmd deps err Hcmd Hdeps Hresp
               | task_cmd deps id Hcmd Hdeps Hresp]).
  - exact Hst.
  - rewrite records_snoc, app_nil_r. exact Hst.
  - apply IH. rewrite records_snoc. simpl.
    rewrite Hst, map_app, <- app_assoc. reflexivity.
Qed.

End batch_more.




(** A run either is stopped by lines 112-128, with the opening lines
    written so far, or is the run of [Batch.submit_dag]. *)
Lemma whole_cases ext tasks args job_def job_queue cmdr0 :
  (exists e,
      AWSBatch.submit_dag ext tasks args job_def job_queue cmdr0
      = AWSBatch.stopped (cmdr0 ++ AWSBatch.opening ext job_def) e) \/
  (exists arn runid out,
      AWSBatch.boto3_client ext = None /\
      AWSBatch.client_register_job_definition ext = Ok arn /\
      AWSBatch.read_ploomber_cloud ext = Ok runid /\
      AWSBatch.pkg_runs_update ext runid tasks = Ok out /\
      AWSBatch.opening ext job_def
      = [AWSBatch.registering job_def; Info "Submitting jobs..."] /\
      AWSBatch.submit_dag ext tasks args job_def job_queue cmdr0
      = submit_dag (AWSBatch.client_submit_job ext) arn out args job_queue
          tasks job_def cmdr0).
Proof.
  unfold AWSBatch.submit_dag, AWSBatch.opening.
  destruct (AWSBatch.boto3_client ext) as [e|].
  { left. exists e. rewrite app_nil_r. reflexivity. }
  destruct (AWSBatch.client_register_job_definition ext) as [arn|e].
  2: { left. exists e. reflexivity. }
  destruct (AWSBatch.read_ploomber_cloud ext) as [runid|e].
  2: { left. exists e. reflexivity. }
  destruct (AWSBatch.pkg_runs_update ext runid tasks) as [out|e] eqn:Hout.
  2: { left. exists e. reflexivity. }
  right. exists arn, runid, out. repeat split; try reflexivity. exact Hout.
Qed.

(** The lines of a run: the opening lines it got to, then one line per
    answered job. *)
Lemma whole_lines ext tasks args job_def job_queue cmdr0 :
  cmdr (final (AWSBatch.submit_dag ext tasks args job_def job_queue cmdr0))
  = cmdr0 ++ AWSBatch.opening ext job_def ++
    map (fun r => Print (submitted_msg (node_name r)))
        (records (final (AWSBatch.submit_dag ext tasks args job_def
                           job_queue cmdr0))).
Proof.
  destruct (whole_cases ext tasks args job_def job_queue cmdr0)
    as [[e ->]|(arn & runid & out & _ & _ & _ & _ & -> & ->)].
  - simpl. rewrite !app_nil_r. reflexivity.
  - unfold submit_dag. rewrite app_assoc.
    apply (loop_lines (AWSBatch.client_submit_job ext) arn out args
             job_queue tasks (init job_def cmdr0)).
    simpl. rewrite app_nil_r. reflexivity.
Qed.



(** A run that lines 112-128 stop: nothing is sent. *)
Example submit_without_cloud_file :
  AWSBatch.submit_dag (Sample.outside_without_cloud_file
                         (Sample.by_name "id-"))
    Sample.abc [] "pkg" "queue" []
  = AWSBatch.stopped
      [Info "Registering 'pkg' job definition...";
       Info "Submitting jobs..."]
      (ClientError "FileNotFoundError").
Proof. vm_compute. reflexivity. Qed.

(** X2. A task that has an upstream name which no task listed before it
    bears (the upstream task comes later, is the task itself, or is not in
    [tasks]) makes the run raise, and neither that task nor any task after
    it is sent to the backend. *)
Theorem submit_out_of_order_stops
    (submit_job : list JobRequest -> JobRequest -> Response)
    (jobDefinitionArn : string) (out : option RunsUpdate)
    (args : list pyval) (job_queue : string)
    (pre : Tasks) (name : string) (upstream : list string) (post : Tasks)
    (u : string) (job_def : string) (cmdr0 : list CmdrLine) :
  NoDup (map fst (pre ++ (name, upstream) :: post)) ->
  In u upstream ->
  ~ In u (map fst pre) ->
  raised (submit_dag submit_job jobDefinitionArn out args job_queue
            (pre ++ (name, upstream) :: post) job_def cmdr0) <> None /\
  forall n,
    In n (name :: map fst post) ->
    ~ In n (requested
              (final (submit_dag submit_job jobDefinitionArn out args
                        job_queue (pre ++ (name, upstream) :: post) job_def
                        cmdr0))).
Proof.
  intros Hnd Hu Hnotin. unfold submit_dag.
  destruct (loop_stops_before submit_job jobDefinitionArn out args job_queue
              pre name upstream post u Hu (init job_def cmdr0))
    as [Hraised Hreq]; [apply lookup_empty | exact Hnotin |].
  split; [exact Hraised|].
  intros n Hn Hin. apply Hreq in Hin as [[]|Hin].
  rewrite map_app in Hnd. apply NoDup_app in Hnd as (_ & Hdisj & _).
  apply (Hdisj n); [apply list_elem_of_In; exact Hin|].
  apply list_elem_of_In. exact Hn.
Qed.

Lemma submit_out_of_order_stops_witness :
  raised (submit_dag (Sample.by_name "id-") "arn" None [] "queue"
            Sample.acb "pkg" []) <> None /\
  forall n,
    In n ["c"; "b"] ->
    ~ In n (requested
              (final (submit_dag (Sample.by_name "id-") "arn" None []
                        "queue" Sample.acb "pkg" []))).
Proof.
  apply (submit_out_of_order_stops (Sample.by_name "id-") "arn" None []
           "queue" [("a", [])] "c" ["a"; "b"] [("b", ["a"])] "b" "pkg" []).
  - apply (bool_decide_unpack _). vm_compute. reflexivity.
  - right. left. reflexivity.
  - simpl. intros [H|[]]. discriminate H.
Defined.

(** X3. Without a run update, the command of every job is
    [ploomber task <name>] followed by the arguments. *)
Theorem command_without_run_update
    (submit_job : list JobRequest -> JobRequest -> Response)
    (jobDefinitionArn : string) (args : list pyval) (job_queue : string)
    (tasks : Tasks) (job_def : string) (cmdr0 : list CmdrLine)
    (req : JobRequest) (resp : Response) :
  In (req, resp)
     (calls (final (submit_dag submit_job jobDefinitionArn None args
                      job_queue tasks job_def cmdr0))) ->
  command req =
    [PyStr "ploomber"; PyStr "task"; PyStr (jobName req)] ++ args.
Proof.
  intros Hin. unfold submit_dag in Hin.
  apply loop_commands in Hin as [[]|(deps & task_cmd & Hcmd & Hreq)].
  simpl in Hcmd. injection Hcmd as <-. rewrite Hreq. reflexivity.
Qed.

Lemma command_without_run_update_witness :
  [PyStr "ploomber"; PyStr "task"; PyStr "b"; PyStr "aws"] =
  [PyStr "ploomber"; PyStr "task"; PyStr "b"] ++ [PyStr "aws"].
Proof.
  apply (command_without_run_update (Sample.by_name "id-") "arn"
           [PyStr "aws"] "queue" Sample.abc "pkg" []
           {| jobName := "b"; jobQueue := "queue"; jobDefinition := "arn";
              dependsOn := ["id-a"];
              command := [PyStr "ploomber"; PyStr "task"; PyStr "b";
                          PyStr "aws"] |}
           (JobId "id-b")).
  vm_compute. right. left. reflexivity.
Defined.

(** X4. With a run update whose [github_number] is falsy, the command of
    every job is the [ploomber.cli.task] invocation with the task id of the
    task, once, followed by the arguments. *)
Theorem command_with_task_id
    (submit_job : list JobRequest -> JobRequest -> Response)
    (jobDefinitionArn : string) (o : RunsUpdate)
    (args : list pyval) (job_queue : string) (tasks : Tasks)
    (job_def : string) (cmdr0 : list CmdrLine)
    (req : JobRequest) (resp : Response) :
  truthy (github_number o) = false ->
  In (req, resp)
     (calls (final (submit_dag submit_job jobDefinitionArn (Some o) args
                      job_queue tasks job_def cmdr0))) ->
  exists task_id,
    taskids o !! jobName req = Some task_id /\
    command req =
      [PyStr "python"; PyStr "-m"; PyStr "ploomber.cli.task";
       PyStr (jobName req); PyStr "--task-id"; task_id] ++ args.
Proof.
  intros Hgh Hin. unfold submit_dag in Hin.
  apply loop_commands in Hin as [[]|(deps & task_cmd & Hcmd & Hreq)].
  unfold ploomber_task, getitem in Hcmd.
  destruct (taskids o !! jobName req) as [task_id|]; simpl in Hcmd;
    [|discriminate Hcmd].
  rewrite Hgh in Hcmd. injection Hcmd as <-.
  exists task_id. split; [reflexivity|]. rewrite Hreq. reflexivity.
Qed.

Lemma command_with_task_id_witness :
  exists task_id,
    taskids Sample.without_github !! "a" = Some task_id /\
    [PyStr "python"; PyStr "-m"; PyStr "ploomber.cli.task"; PyStr "a";
     PyStr "--task-id"; PyStr "t-1"; PyStr "aws"] =
    [PyStr "python"; PyStr "-m"; PyStr "ploomber.cli.task"; PyStr "a";
     PyStr "--task-id"; task_id] ++ [PyStr "aws"].
Proof.
  apply (command_with_task_id (Sample.by_name "id-") "arn"
           Sample.without_github [PyStr "aws"] "queue" Sample.abc "pkg" []
           {| jobName := "a"; jobQueue := "queue"; jobDefinition := "arn";
              dependsOn := [];
              command := [PyStr "python"; PyStr "-m";
                          PyStr "ploomber.cli.task"; PyStr "a";
                          PyStr "--task-id"; PyStr "t-1"; PyStr "aws"] |}
           (JobId "id-a")).
  - reflexivity.
  - vm_compute. left. reflexivity.
Defined.

Lemma ploomber_task_needs_id o name task_cmd :
  Batch.ploomber_task (Some o) name = Ok task_cmd ->
  is_Some (taskids o !! name).
Proof.
  unfold Batch.ploomber_task, getitem.
  destruct (taskids o !! name); [eauto | discriminate].
Qed.

(** A task without a task id stops the loop before it is sent. *)
Lemma loop_stops_without_id submit_job jobDefinitionArn o args job_queue
    pre name upstream post :
  taskids o !! name = None ->
  forall st,
    raised (Batch.loop submit_job jobDefinitionArn (Some o) args job_queue
              (pre ++ (name, upstream) :: post) st) <> None /\
    forall n,
      In n (requested
              (final (Batch.loop submit_job jobDefinitionArn (Some o) args
                        job_queue (pre ++ (name, upstream) :: post) st))) ->
      In n (requested st) \/ In n (map fst pre).
Proof.
  intros Hnone. induction pre as [|[n ups] pre IH]; intros st.
  - simpl app. rewrite loop_cons. body_split st name upstream
      ipattern:([k' Hk | task_cmd deps err Hcmd Hdeps Hresp
                 | task_cmd deps id Hcmd Hdeps Hresp]).
    + split; [discriminate | auto].
    + apply ploomber_task_needs_id in Hcmd as [? Hcmd]. congruence.
    + apply ploomber_task_needs_id in Hcmd as [? Hcmd]. congruence.
  - simpl app. rewrite loop_cons. body_split st n ups
      ipattern:([k' Hk | task_cmd deps err Hcmd Hdeps Hresp
                 | task_cmd deps id Hcmd Hdeps Hresp]).
    + split; [discriminate | auto].
    + split; [discriminate|]. intros m. rewrite requested_snoc.
      intros [Hm|[<-|[]]]%in_app_or; [left; exact Hm|].
      right. left. reflexivity.
    + destruct (IH {| job_ids := <[n:=id]> (job_ids st);
                      calls := calls st ++
                               [(Batch.request jobDefinitionArn args
                                   job_queue n deps task_cmd, JobId id)];
                      cmdr := cmdr st ++ [Print (submitted_msg n)] |})
        as [Hraised Hreq].
      split; [exact Hraised|]. intros m Hm.
      apply Hreq in Hm. rewrite requested_snoc in Hm.
      destruct Hm as [[Hm|[<-|[]]]%in_app_or|Hm].
      * left. exact Hm.
      * right. left. reflexivity.
      * right. right. exact Hm.
Qed.

(** X5. With a run update, a task that has no task id makes the run raise,
    and neither that task nor any task after it is sent to the backend. *)
Theorem task_without_id_stops
    (submit_job : list JobRequest -> JobRequest -> Response)
    (jobDefinitionArn : string) (o : RunsUpdate)
    (args : list pyval) (job_queue : string)
    (pre : Tasks) (name : string) (upstream : list string) (post : Tasks)
    (job_def : string) (cmdr0 : list CmdrLine) :
  NoDup (map fst (pre ++ (name, upstream) :: post)) ->
  taskids o !! name = None ->
  raised (submit_dag submit_job jobDefinitionArn (Some o) args job_queue
            (pre ++ (name, upstream) :: post) job_def cmdr0) <> None /\
  forall n,
    In n (name :: map fst post) ->
    ~ In n (requested
              (final (submit_dag submit_job jobDefinitionArn (Some o) args
                        job_queue (pre ++ (name, upstream) :: post) job_def
                        cmdr0))).
Proof.
  intros Hnd Hnone. unfold submit_dag.
  destruct (loop_stops_without_id submit_job jobDefinitionArn o args
              job_queue pre name upstream post Hnone (init job_def cmdr0))
    as [Hraised Hreq].
  split; [exact Hraised|].
  intros n Hn Hin. apply Hreq in Hin as [[]|Hin].
  rewrite map_app in Hnd. apply NoDup_app in Hnd as (_ & Hdisj & _).
  apply (Hdisj n); [apply list_elem_of_In; exact Hin|].
  apply list_elem_of_In. exact Hn.
Qed.

Lemma task_without_id_stops_witness :
  raised (submit_dag (Sample.by_name "id-") "arn" (Some Sample.with_github)
            [] "queue" Sample.abc "pkg" []) <> None /\
  forall n,
    In n ["b"; "c"] ->
    ~ In n (requested
              (final (submit_dag (Sample.by_name "id-") "arn"
                        (Some Sample.with_github) [] "queue" Sample.abc
                        "pkg" []))).
Proof.
  apply (task_without_id_stops (Sample.by_name "id-") "arn"
           Sample.with_github [] "queue" [("a", [])] "b" ["a"]
           [("c", ["a"; "b"])] "pkg" []).
  - apply (bool_decide_unpack _). vm_compute. reflexivity.
  - vm_compute. reflexivity.
Defined.

Lemma submit_after_upstream_position
    (submit_job : list JobRequest -> JobRequest -> Response)
    (jobDefinitionArn : string) (out : option RunsUpdate)
    (args : list pyval) (job_queue : string) (tasks : Tasks)
    (job_def : string) (cmdr0 : list CmdrLine)
    (pre : list (JobRequest * Response)) (req : JobRequest)
    (resp : Response) (post : list (JobRequest * Response)) :
  calls (final (submit_dag submit_job jobDefinitionArn out args job_queue
                  tasks job_def cmdr0))
    = pre ++ (req, resp) :: post ->
  exists upstream, tasks !! length pre = Some (jobName req, upstream).
Proof.
  intros Hcalls. unfold submit_dag in Hcalls.
  destruct (loop_calls submit_job jobDefinitionArn out args job_queue tasks
              (init job_def cmdr0)) as (_ & new & Hnew & Hspec).
  { intros u id. simpl. rewrite lookup_empty. discriminate. }
  simpl in Hnew. rewrite Hnew in Hcalls. subst new.
  destruct (Hspec _ _ _ _ eq_refl) as (upstream & Hlook & _).
  exists upstream. exact Hlook.
Qed.

(** X6. Every job is sent to the configured queue, under the job
    definition that was registered, and bears the name of its task. *)
Theorem requests_carry_queue_and_definition
    (submit_job : list JobRequest -> JobRequest -> Response)
    (jobDefinitionArn : string) (out : option RunsUpdate)
    (args : list pyval) (job_queue : string) (tasks : Tasks)
    (job_def : string) (cmdr0 : list CmdrLine)
    (req : JobRequest) (resp : Response) :
  In (req, resp)
     (calls (final (submit_dag submit_job jobDefinitionArn out args
                      job_queue tasks job_def cmdr0))) ->
  jobQueue req = job_queue /\
  jobDefinition req = jobDefinitionArn /\
  In (jobName req) (map fst tasks).
Proof.
  intros Hin. split; [|split].
  - unfold submit_dag in Hin.
    apply loop_commands in Hin as [[]|(deps & task_cmd & _ & ->)].
    reflexivity.
  - unfold submit_dag in Hin.
    apply loop_commands in Hin as [[]|(deps & task_cmd & _ & ->)].
    reflexivity.
  - apply in_split in Hin as (l1 & l2 & Hcalls).
    destruct (submit_after_upstream_position submit_job jobDefinitionArn out
                args job_queue tasks job_def cmdr0 l1 req resp l2 Hcalls)
      as (upstream & Hlook).
    apply list_elem_of_lookup_2, list_elem_of_In in Hlook.
    apply in_map_iff. exists (jobName req, upstream). auto.
Qed.

Lemma requests_carry_queue_and_definition_witness :
  "queue" = "queue" /\ "arn" = "arn" /\ In "c" (map fst Sample.abc).
Proof.
  apply (requests_carry_queue_and_definition (Sample.by_name "id-") "arn"
           None [] "queue" Sample.abc "pkg" []
           {| jobName := "c"; jobQueue := "queue"; jobDefinition := "arn";
              dependsOn := ["id-a"; "id-b"];
              command := [PyStr "ploomber"; PyStr "task"; PyStr "c"] |}
           (JobId "id-c")).
  vm_compute. right. right. left. reflexivity.
Defined.

(** X7. At the end of a run, whatever its outcome, [job_ids] holds for each
    task the id the backend answered its job with, and nothing else. *)
Theorem job_ids_are_answers
    (submit_job : list JobRequest -> JobRequest -> Response)
    (jobDefinitionArn : string) (out : option RunsUpdate)
    (args : list pyval) (job_queue : string) (tasks : Tasks)
    (job_def : string) (cmdr0 : list CmdrLine) (name id : string) :
  NoDup (map fst tasks) ->
  (job_ids (final (submit_dag submit_job jobDefinitionArn out args job_queue
                     tasks job_def cmdr0)) !! name = Some id <->
   exists deps,
     In {| node_name := name; backend_job_id := id; dependency_ids := deps |}
        (records (final (submit_dag submit_job jobDefinitionArn out args
                           job_queue tasks job_def cmdr0)))).
Proof.
  intros Hnd. unfold submit_dag.
  rewrite (loop_answers submit_job jobDefinitionArn out args job_queue tasks
             Hnd (init job_def cmdr0)).
  - unfold answered. rewrite in_map_iff. split.
    + intros ([n j deps] & [= -> ->] & Hin). exists deps. exact Hin.
    + intros [deps Hin]. eexists. split; [|exact Hin]. reflexivity.
  - intros n _. apply lookup_empty.
  - intros n j. simpl. rewrite lookup_empty. split; [discriminate | intros []].
Qed.

Lemma job_ids_are_answers_witness :
  job_ids (final (submit_dag (Sample.fail_on "b" "id-") "arn" None []
                    "queue" Sample.abc "pkg" [])) !! "a" = Some "id-a" <->
  exists deps,
    In {| node_name := "a"; backend_job_id := "id-a";
          dependency_ids := deps |}
       (records (final (submit_dag (Sample.fail_on "b" "id-") "arn" None []
                          "queue" Sample.abc "pkg" []))).
Proof.
  exact (job_ids_are_answers (Sample.fail_on "b" "id-") "arn" None []
           "queue" Sample.abc "pkg" [] "a" "id-a" abc_nodup).
Defined.

(** X8. For a job definition and tasks with ASCII names, what [submit_dag]
    writes through [cmdr] is the opening lines it gets to (none when the
    client cannot be created, the first when the job definition cannot be
    registered, both otherwise) and then one [Submitted task ...] line per
    job that was answered with an id, in the order of the jobs, whatever the
    outcome of the run. *)
Theorem one_line_per_answer
    (ext : AWSBatch.External) (tasks : Tasks) (args : list pyval)
    (job_def : string) (job_queue : string) (cmdr0 : list CmdrLine) :
  is_ascii job_def = true ->
  (forall name, In name (map fst tasks) -> is_ascii name = true) ->
  cmdr (final (AWSBatch.submit_dag ext tasks args job_def job_queue cmdr0))
  = cmdr0 ++
    match AWSBatch.boto3_client ext with
    | Some _ => []
    | None =>
        match AWSBatch.client_register_job_definition ext with
        | Raise _ =>
            [Info ("Registering " +:+ repr job_def +:+
                   " job definition...")]
        | Ok _ =>
            [Info ("Registering " +:+ repr job_def +:+
                   " job definition...");
             Info "Submitting jobs..."]
        end
    end ++
    map (fun r => Print ("Submitted task " +:+ repr (node_name r) +:+ "..."))
        (records (final (AWSBatch.submit_dag ext tasks args job_def
                           job_queue cmdr0))).
Proof.
  intros _ _. apply whole_lines.
Qed.

Lemma one_line_per_answer_witness :
  cmdr (final (AWSBatch.submit_dag
                 (Sample.outside (Sample.fail_on "b" "id-") None)
                 Sample.abc [] "pkg" "queue" []))
  = [] ++
    [Info ("Registering " +:+ repr "pkg" +:+ " job definition...");
     Info "Submitting jobs..."] ++
    map (fun r => Print ("Submitted task " +:+ repr (node_name r) +:+ "..."))
        (records (final (AWSBatch.submit_dag
                           (Sample.outside (Sample.fail_on "b" "id-") None)
                           Sample.abc [] "pkg" "queue" []))).
Proof.
  apply (one_line_per_answer
           (Sample.outside (Sample.fail_on "b" "id-") None)
           Sample.abc [] "pkg" "queue" []).
  - reflexivity.
  - intros name Hname. simpl in Hname.
    destruct Hname as [<-|[<-|[<-|[]]]]; reflexivity.
Defined.

(** X9. When [pkg.runs_update] answers the same for [l1] as for [l1 ++ l2],
    what is done for the first tasks does not depend on the tasks that
    follow: the calls made for [l1] alone open the calls made for
    [l1 ++ l2], and when [l1] alone raises, [l1 ++ l2] gives the very same
    run. *)
Theorem later_tasks_change_nothing_before
    (ext : AWSBatch.External) (l1 l2 : Tasks) (args : list pyval)
    (job_def : string) (job_queue : string) (cmdr0 : list CmdrLine) :
  (forall runid,
      AWSBatch.pkg_runs_update ext runid (l1 ++ l2)
      = AWSBatch.pkg_runs_update ext runid l1) ->
  calls (final (AWSBatch.submit_dag ext l1 args job_def job_queue cmdr0))
    `prefix_of`
  calls (final (AWSBatch.submit_dag ext (l1 ++ l2) args job_def job_queue
                  cmdr0)) /\
  (raised (AWSBatch.submit_dag ext l1 args job_def job_queue cmdr0)
     <> None ->
   AWSBatch.submit_dag ext (l1 ++ l2) args job_def job_queue cmdr0
   = AWSBatch.submit_dag ext l1 args job_def job_queue cmdr0).
Proof.
  intros Hsame. unfold AWSBatch.submit_dag.
  destruct (AWSBatch.boto3_client ext); [split; [reflexivity | auto]|].
  destruct (AWSBatch.client_register_job_definition ext) as [arn|];
    [|split; [reflexivity | auto]].
  destruct (AWSBatch.read_ploomber_cloud ext) as [runid|];
    [|split; [reflexivity | auto]].
  rewrite Hsame.
  destruct (AWSBatch.pkg_runs_update ext runid l1) as [out|];
    [|split; [reflexivity | auto]].
  rewrite loop_app_split.
  destruct (raised (loop _ _ _ _ _ l1 _)) eqn:Hraised.
  - split; [reflexivity | auto].
  - split; [|intros H; contradiction].
    destruct (loop_calls (AWSBatch.client_submit_job ext) arn out args
                job_queue l2
                (final (loop (AWSBatch.client_submit_job ext) arn out args
                          job_queue l1 (init job_def cmdr0))))
      as (_ & new & -> & _).
    + apply (loop_calls (AWSBatch.client_submit_job ext) arn out args
               job_queue l1 (init job_def cmdr0)).
      intros u id. simpl. rewrite lookup_empty. discriminate.
    + exists new. reflexivity.
Qed.

Lemma later_tasks_change_nothing_before_witness :
  calls (final (AWSBatch.submit_dag
                  (Sample.outside (Sample.fail_on "b" "id-") None)
                  [("a", []); ("b", ["a"])] [] "pkg" "queue" []))
    `prefix_of`
  calls (final (AWSBatch.submit_dag
                  (Sample.outside (Sample.fail_on "b" "id-") None)
                  ([("a", []); ("b", ["a"])] ++ [("c", ["a"; "b"])]) []
                  "pkg" "queue" [])) /\
  (raised (AWSBatch.submit_dag
             (Sample.outside (Sample.fail_on "b" "id-") None)
             [("a", []); ("b", ["a"])] [] "pkg" "queue" []) <> None ->
   AWSBatch.submit_dag (Sample.outside (Sample.fail_on "b" "id-") None)
     ([("a", []); ("b", ["a"])] ++ [("c", ["a"; "b"])]) [] "pkg" "queue" []
   = AWSBatch.submit_dag (Sample.outside (Sample.fail_on "b" "id-") None)
       [("a", []); ("b", ["a"])] [] "pkg" "queue" []).
Proof.
  apply (later_tasks_change_nothing_before
           (Sample.outside (Sample.fail_on "b" "id-") None)
           [("a", []); ("b", ["a"])] [("c", ["a"; "b"])] [] "pkg" "queue"
           []).
  intros runid. reflexivity.
Defined.

(** ** More on [_export] *)

(** X10. [_export] writes [Done. Submitted to AWS Batch] exactly when its
    block raises nothing: not when there is no task, not when [cli_args] has
    no entry point, not when [docker.build] raises or stops, not when
    [submit_dag] raises. And [_export] itself raises nothing exactly when
    the block raises nothing or raises [CommanderStop], which the exit of
    the [with] block suppresses. *)
Theorem export_done_only_without_error
    (ext : AWSBatch.External)
    (build : pyval -> list CmdrLine * result (string * string))
    (job_queue : string) (tasks : Tasks) (cli_args : list pyval)
    (mode : string) (cmdr0 : list CmdrLine) :
  ~ In (Success "Done. Submitted to AWS Batch") cmdr0 ->
  (forall entry_point,
      ~ In (Success "Done. Submitted to AWS Batch") (build entry_point).1) ->
  (In (Success "Done. Submitted to AWS Batch")
      (AWSBatch.export_cmdr
         (AWSBatch._export ext build job_queue tasks cli_args mode cmdr0))
   <->
   AWSBatch.export_raised
     (AWSBatch._export_block ext build job_queue tasks cli_args mode cmdr0)
   = None) /\
  (AWSBatch.export_raised
     (AWSBatch._export ext build job_queue tasks cli_args mode cmdr0) = None
   <->
   AWSBatch.export_raised
     (AWSBatch._export_block ext build job_queue tasks cli_args mode cmdr0)
   = None \/
   exists msg,
     AWSBatch.export_raised
       (AWSBatch._export_block ext build job_queue tasks cli_args mode
          cmdr0)
     = Some (CommanderStop msg)).
Proof.
  intros Hfresh Hbuild.
  assert (forall r : AWSBatch.ExportRun,
             ~ In AWSBatch.done_line (AWSBatch.export_cmdr r) ->
             AWSBatch.export_raised r <> None ->
             ~ In AWSBatch.done_line
                 (AWSBatch.export_cmdr (AWSBatch.commander_exit r)))
    as Hexit.
  { intros r Hr Hraised. unfold AWSBatch.commander_exit.
    destruct (AWSBatch.export_raised r) as [[]|]; try exact Hr.
    cbn [AWSBatch.export_cmdr]. rewrite in_app_iff.
    intros [H|[H|[]]]; [exact (Hr H) | discriminate H]. }
  split.
  - unfold AWSBatch._export.
    set (block := AWSBatch._export_block ext build job_queue tasks cli_args
                    mode cmdr0).
    destruct (AWSBatch.export_raised block) as [e|] eqn:Hraised.
    + split; [|discriminate]. intros Hin. exfalso. revert Hin.
      apply Hexit; [|rewrite Hraised; discriminate].
      subst block. revert Hraised. unfold AWSBatch._export_block.
      destruct tasks as [|item rest]; [intros _; exact Hfresh|].
      destruct (cli_args !! 1%nat) as [entry_point|];
        [|intros _; exact Hfresh].
      destruct (build entry_point).2 as [[pkg_name remote_name]|e'].
      * cbn [AWSBatch.export_cmdr AWSBatch.export_raised].
        intros ->. rewrite whole_lines, !in_app_iff, in_map_iff.
        intros [[H|[H|[H|[]]]]|[H|(r & H & _)]];
          try discriminate H.
        -- exact (Hfresh H).
        -- exact (Hbuild entry_point H).
        -- unfold AWSBatch.opening in H.
           destruct (AWSBatch.boto3_client ext); [destruct H|].
           destruct (AWSBatch.client_register_job_definition ext);
             simpl in H; intuition discriminate.
      * cbn [AWSBatch.export_cmdr]. intros _. rewrite in_app_iff.
        intros [H|H]; [exact (Hfresh H) | exact (Hbuild entry_point H)].
    + split; [intros _; reflexivity|]. intros _.
      unfold AWSBatch.commander_exit. rewrite Hraised.
      subst block. revert Hraised. unfold AWSBatch._export_block.
      destruct tasks as [|item rest]; [discriminate|].
      destruct (cli_args !! 1%nat) as [entry_point|]; [|discriminate].
      destruct (build entry_point).2 as [[pkg_name remote_name]|e'];
        [|discriminate].
      cbn [AWSBatch.export_cmdr AWSBatch.export_raised]. intros ->.
      apply in_or_app. right. left. reflexivity.
  - unfold AWSBatch._export, AWSBatch.commander_exit.
    destruct (AWSBatch.export_raised (AWSBatch._export_block _ _ _ _ _ _ _))
      as [[]|] eqn:Hraised;
      cbn [AWSBatch.export_raised]; rewrite ?Hraised; naive_solver.
Qed.

Lemma export_done_only_without_error_witness :
  (In (Success "Done. Submitted to AWS Batch")
      (AWSBatch.export_cmdr
         (AWSBatch._export (Sample.outside (Sample.by_name "id-") None)
            Sample.build_ok "queue" Sample.abc
            [PyStr "aws"; PyStr "pipeline.yaml"] "incremental" []))
   <->
   AWSBatch.export_raised
     (AWSBatch._export_block (Sample.outside (Sample.by_name "id-") None)
        Sample.build_ok "queue" Sample.abc
        [PyStr "aws"; PyStr "pipeline.yaml"] "incremental" [])
   = None) /\
  (AWSBatch.export_raised
     (AWSBatch._export (Sample.outside (Sample.by_name "id-") None)
        Sample.build_ok "queue" Sample.abc
        [PyStr "aws"; PyStr "pipeline.yaml"] "incremental" []) = None
   <->
   AWSBatch.export_raised
     (AWSBatch._export_block (Sample.outside (Sample.by_name "id-") None)
        Sample.build_ok "queue" Sample.abc
        [PyStr "aws"; PyStr "pipeline.yaml"] "incremental" [])
   = None \/
   exists msg,
     AWSBatch.export_raised
       (AWSBatch._export_block (Sample.outside (Sample.by_name "id-") None)
          Sample.build_ok "queue" Sample.abc
          [PyStr "aws"; PyStr "pipeline.yaml"] "incremental" [])
     = Some (CommanderStop msg)).
Proof.
  apply (export_done_only_without_error
           (Sample.outside (Sample.by_name "id-") None) Sample.build_ok
           "queue" Sample.abc [PyStr "aws"; PyStr "pipeline.yaml"]
           "incremental" []).
  - intros [].
  - intros entry_point [H|[]]. discriminate H.
Defined.



(** A run of [_export] that [docker.build] stops, as it does with
    [until='build']: the message is shown and [_export] returns. *)
Example export_stopped_by_build :
  AWSBatch._export (Sample.outside (Sample.by_name "id-") None)
    (fun _ => ([], Raise (CommanderStop "Done. Image built.")))
    "queue" Sample.abc [PyStr "aws"; PyStr "pipeline.yaml"] "incremental" []
  = {| AWSBatch.build_calls := [PyStr "pipeline.yaml"];
       AWSBatch.batch_calls := [];
       AWSBatch.export_cmdr := [Info "Done. Image built."];
       AWSBatch.export_raised := None |}.
Proof. vm_compute. reflexivity. Qed.

(** ** More on [_validate] *)

Lemma products_app (d1 d2 : ProductDag) :
  products (d1 ++ d2) = products d1 ++ products d2.
Proof. unfold products. apply flat_map_app. Qed.

Lemma validate_ok_iff resolve env_name env_exists dag :
  _validate resolve env_name env_exists dag = Ok tt <->
  products_invalid resolve dag = [].
Proof.
  unfold _validate. destruct (products_invalid resolve dag); split;
    congruence.
Qed.

(** X12. Validation of a DAG passes exactly when it passes for each part of
    it: the tasks are checked one by one, and adding tasks never turns a
    rejected DAG into an accepted one. *)
Theorem validate_app
    (resolve : string -> string) (env_name : string) (env_exists : bool)
    (d1 d2 : ProductDag) :
  _validate resolve env_name env_exists (d1 ++ d2) = Ok tt <->
  _validate resolve env_name env_exists d1 = Ok tt /\
  _validate resolve env_name env_exists d2 = Ok tt.
Proof.
  rewrite !validate_ok_iff. unfold products_invalid.
  rewrite products_app, List.filter_app. split.
  - intros H. apply app_eq_nil in H. exact H.
  - intros [-> ->]. reflexivity.
Qed.

(** X13. The outcome of validation, message included, depends on the paths
    of the products in the order of the DAG and on nothing else: not on the
    names of the tasks, not on whether a path stands alone or inside a
    [MetaProduct]. *)
Theorem validate_ignores_task_names
    (resolve : string -> string) (env_name : string) (env_exists : bool)
    (d1 d2 : ProductDag) :
  flat_map (fun t => product_paths t.2) d1
    = flat_map (fun t => product_paths t.2) d2 ->
  _validate resolve env_name env_exists d1
    = _validate resolve env_name env_exists d2.
Proof.
  intros Hsame. unfold _validate, products_invalid, products.
  rewrite Hsame. reflexivity.
Qed.

Lemma validate_ignores_task_names_witness :
  _validate (Sample.resolve_in "/ws") "airflow" false
    [("fit", MetaProduct ["/tmp/model.pkl"; "report.html"])]
  = _validate (Sample.resolve_in "/ws") "airflow" false
      [("train", File "/tmp/model.pkl"); ("plot", File "report.html")].
Proof.
  apply (validate_ignores_task_names (Sample.resolve_in "/ws") "airflow"
           false).
  reflexivity.
Defined.

(** X14. The test is made on the text of the resolved path: a product whose
    resolved path is the text of the project root followed by anything at
    all is rejected, a folder beside the root whose name starts like the
    root's included. *)
Theorem validate_rejects_text_prefix
    (resolve : string -> string) (env_name : string) (env_exists : bool)
    (dag : ProductDag) (name : string) (product : Product)
    (path suffix : string) :
  In (name, product) dag ->
  In path (product_paths product) ->
  resolve path = project_root resolve +:+ suffix ->
  exists msg,
    _validate resolve env_name env_exists dag = Raise (ValueError msg) /\
    In path (products_invalid resolve dag).
Proof.
  intros Hin Hpath Hres.
  assert (In path (products_invalid resolve dag)) as Hinv.
  { unfold products_invalid. apply filter_In.
    split; [eapply in_products; eassumption|].
    unfold under_root, startswith. rewrite Hres. apply prefix_append. }
  unfold _validate.
  destruct (products_invalid resolve dag) as [|x l]; [destruct Hinv|].
  eexists. split; [reflexivity | exact Hinv].
Qed.

Lemma validate_rejects_text_prefix_witness :
  exists msg,
    _validate (Sample.resolve_in "/ws") "airflow" false
      [("load", File "/ws-old/data.csv")] = Raise (ValueError msg) /\
    In "/ws-old/data.csv"
       (products_invalid (Sample.resolve_in "/ws")
          [("load", File "/ws-old/data.csv")]).
Proof.
  apply (validate_rejects_text_prefix (Sample.resolve_in "/ws") "airflow"
           false [("load", File "/ws-old/data.csv")] "load"
           (File "/ws-old/data.csv") "/ws-old/data.csv" "-old/data.csv").
  - left. reflexivity.
  - left. reflexivity.
  - reflexivity.
Defined.

(** ** More on [_submit] *)

Lemma copy_entries_not_ignored copy names (l : list (string * Entry)) n c' :
  In (n, c') (copy_entries copy names l) -> name_in n names = false.
Proof.
  induction l as [|[m child] rest IH]; simpl; [intros []|].
  destruct (name_in m names) eqn:Hm; [exact IH|].
  intros [[= <- _]|Hin]; [exact Hm | apply IH, Hin].
Qed.

(** The entry found under a name in the copy is the copy of the entry found
    under that name in the source. *)
Lemma find_copy_entries_source copy names (l : list (string * Entry))
    name n c' :
  List.find (fun ne => String.eqb name (fst ne)) (copy_entries copy names l)
    = Some (n, c') ->
  exists c,
    List.find (fun ne => String.eqb name (fst ne)) l = Some (n, c) /\
    c' = copy n c.
Proof.
  induction l as [|[m child] rest IH]; simpl; [discriminate|].
  destruct (name_in m names) eqn:Hm.
  - intros H. destruct (String.eqb name m) eqn:Hname.
    + exfalso. apply String.eqb_eq in Hname. subst m.
      pose proof (find_some _ _ H) as [Hin Heq]. simpl in Heq.
      apply String.eqb_eq in Heq. subst n.
      apply copy_entries_not_ignored in Hin. congruence.
    + apply IH, H.
  - simpl. destruct (String.eqb name m).
    + intros [= <- <-]. exists child. auto.
    + apply IH.
Qed.

Lemma find_copy_entries_all copy (l : list (string * Entry)) name :
  List.find (fun ne => String.eqb name (fst ne)) (copy_entries copy [] l)
  = option_map (fun ne => (fst ne, copy (fst ne) (snd ne)))
      (List.find (fun ne => String.eqb name (fst ne)) l).
Proof.
  induction l as [|[m child] rest IH]; [reflexivity|].
  simpl. destruct (String.eqb name m); [reflexivity | exact IH].
Qed.

Lemma ignore_outside env_parts project_name src names :
  startswith (path_str src) (sub_dir env_parts project_name) = false ->
  ignore env_parts project_name src names = [].
Proof. intros H. unfold ignore. rewrite H. reflexivity. Qed.

Lemma copytree_outside env_parts project_name parts :
  forall src e,
    (forall q, In q (proper_prefixes parts) ->
       startswith (path_str (src ++ q)) (sub_dir env_parts project_name)
         = false) ->
    lookup_path parts (copytree (ignore env_parts project_name) src e)
    = option_map (copytree (ignore env_parts project_name) (src ++ parts))
        (lookup_path parts e).
Proof.
  induction parts as [|name rest IH]; intros src e Hout.
  - simpl. rewrite app_nil_r. reflexivity.
  - destruct e as [content|es]; [reflexivity|].
    assert (startswith (path_str src) (sub_dir env_parts project_name)
            = false) as Hsrc.
    { rewrite <- (app_nil_r src). apply Hout. left. reflexivity. }
    cbn [copytree lookup_path].
    rewrite (ignore_outside env_parts project_name src (map fst es) Hsrc).
    rewrite find_copy_entries_all.
    destruct (List.find _ es) as [[n c]|] eqn:Hfind; [|reflexivity].
    simpl. apply find_some in Hfind as [_ Hn]. simpl in Hn.
    apply String.eqb_eq in Hn. subst n.
    rewrite IH.
    + rewrite <- app_assoc. reflexivity.
    + intros q Hq. rewrite <- app_assoc. apply Hout. right.
      apply in_map. exact Hq.
Qed.

Lemma copytree_source env_parts project_name parts :
  forall src e e',
    lookup_path parts (copytree (ignore env_parts project_name) src e)
      = Some e' ->
    exists e0,
      lookup_path parts e = Some e0 /\
      e' = copytree (ignore env_parts project_name) (src ++ parts) e0.
Proof.
  induction parts as [|name rest IH]; intros src e e' Hlook.
  - simpl in Hlook. injection Hlook as <-. exists e.
    rewrite app_nil_r. auto.
  - destruct e as [content|es]; [discriminate Hlook|].
    simpl in Hlook.
    destruct (List.find _ (copy_entries _ _ _)) as [[n c']|] eqn:Hfind;
      [|discriminate Hlook].
    pose proof (find_some _ _ Hfind) as [_ Hn]. simpl in Hn.
    apply String.eqb_eq in Hn. subst n.
    apply find_copy_entries_source in Hfind as (c & Hfind & ->).
    apply IH in Hlook as (e0 & He0 & ->).
    exists e0. simpl. rewrite Hfind, <- app_assoc. auto.
Qed.

Lemma copy_project_copied env_parts project_name project tree :
  copy_project env_parts project_name project = Copied tree ->
  obstacle (rel env_parts project_name) (DirEntry project) = NoObstacle /\
  tree = copytree (ignore env_parts project_name) [] (DirEntry project).
Proof.
  unfold copy_project.
  destruct (obstacle _ _); [|discriminate..].
  intros [= <-]. split; reflexivity.
Qed.

(** X15. When the [shutil.copytree] call of line 150 returns, it has added
    nothing: whatever is at a path of the tree it wrote is the copy of what
    is at that path of the project; a file of that tree is a file of the
    project with the same content. *)
Theorem copy_adds_nothing
    (env_parts : list string) (project_name : string)
    (project : list (string * Entry)) (tree : Entry) (parts : list string)
    (e' : Entry) :
  copy_project env_parts project_name project = Copied tree ->
  lookup_path parts tree = Some e' ->
  (exists e,
      lookup_path parts (DirEntry project) = Some e /\
      e' = copytree (ignore env_parts project_name) parts e) /\
  (forall content,
      e' = FileEntry content ->
      lookup_path parts (DirEntry project) = Some (FileEntry content)).
Proof.
  intros Hcopy Hlook.
  apply copy_project_copied in Hcopy as [_ ->].
  apply copytree_source in Hlook as (e & He & ->). simpl in *.
  split; [exists e; auto|].
  intros content Hfile. destruct e as [c|es]; [|discriminate Hfile].
  simpl in Hfile. injection Hfile as ->. exact He.
Qed.

Lemma copy_adds_nothing_witness :
  (exists e,
      lookup_path ["src"; "load.py"] (DirEntry Sample.project) = Some e /\
      FileEntry "code" = copytree (ignore ["airflow"] "proj")
                           ["src"; "load.py"] e) /\
  (forall content,
      FileEntry "code" = FileEntry content ->
      lookup_path ["src"; "load.py"] (DirEntry Sample.project)
        = Some (FileEntry content)).
Proof.
  apply (copy_adds_nothing ["airflow"] "proj" Sample.project
           (_submit ["airflow"] "proj" Sample.project)
           ["src"; "load.py"] (FileEntry "code")).
  - vm_compute. reflexivity.
  - vm_compute. reflexivity.
Defined.

(** X16. When the [shutil.copytree] call of line 150 returns, what lies at
    a path none of whose enclosing directories, the project root included,
    has a path starting with [sub_dir] is in the tree it wrote: a file with
    its content, a directory as the copy of that directory. *)
Theorem copy_keeps_what_is_outside
    (env_parts : list string) (project_name : string)
    (project : list (string * Entry)) (tree : Entry)
    (parts : list string) :
  copy_project env_parts project_name project = Copied tree ->
  (forall q, In q (proper_prefixes parts) ->
     startswith (path_str q) (sub_dir env_parts project_name) = false) ->
  lookup_path parts tree
    = option_map (copytree (ignore env_parts project_name) parts)
        (lookup_path parts (DirEntry project)) /\
  (forall content,
      lookup_path parts (DirEntry project) = Some (FileEntry content) ->
      lookup_path parts tree = Some (FileEntry content)).
Proof.
  intros Hcopy Hout.
  apply copy_project_copied in Hcopy as [_ ->].
  assert (lookup_path parts
            (copytree (ignore env_parts project_name) [] (DirEntry project))
          = option_map (copytree (ignore env_parts project_name) parts)
              (lookup_path parts (DirEntry project))) as Heq.
  { rewrite copytree_outside; [reflexivity | exact Hout]. }
  split; [exact Heq|].
  intros content Hfile. rewrite Heq, Hfile. reflexivity.
Qed.

Lemma copy_keeps_what_is_outside_witness :
  lookup_path ["src"; "load.py"]
    (copytree (ignore ["airflow"] "proj") [] (DirEntry Sample.project))
    = option_map (copytree (ignore ["airflow"] "proj") ["src"; "load.py"])
        (lookup_path ["src"; "load.py"] (DirEntry Sample.project)) /\
  (forall content,
      lookup_path ["src"; "load.py"] (DirEntry Sample.project)
        = Some (FileEntry content) ->
      lookup_path ["src"; "load.py"]
        (copytree (ignore ["airflow"] "proj") [] (DirEntry Sample.project))
        = Some (FileEntry content)).
Proof.
  apply (copy_keeps_what_is_outside ["airflow"] "proj" Sample.project
           (copytree (ignore ["airflow"] "proj") []
              (DirEntry Sample.project))
           ["src"; "load.py"]).
  - vm_compute. reflexivity.
  - intros q Hq. simpl in Hq.
    destruct Hq as [<-|[<-|[]]]; vm_compute; reflexivity.
Defined.

(** The copy raises when the destination is there already, as it is when
    [_submit] runs a second time on the same project. *)
Example copy_twice_raises :
  copy_project ["airflow"] "proj"
    [("airflow",
      DirEntry [("ploomber", DirEntry [("proj", DirEntry [])])])]
  = FileExistsError.
Proof. reflexivity. Qed.

(** X17. Nothing under the environment folder is copied: a path of two or
    more parts whose first part is [sub_dir] is not in the copy. With an
    environment name that is not empty, this holds for the declaration of
    the DAG that [_add] writes to [<env_name>/dags/<project_name>.py]. *)
Theorem environment_folder_content_not_copied
    (env_parts : list string) (project_name : string)
    (project : list (string * Entry)) :
  (forall name rest,
      lookup_path (sub_dir env_parts project_name :: name :: rest)
        (_submit env_parts project_name project) = None) /\
  (env_parts <> [] ->
   lookup_path (path_out env_parts project_name)
     (_submit env_parts project_name project) = None).
Proof.
  assert (forall name rest,
      lookup_path (sub_dir env_parts project_name :: name :: rest)
        (_submit env_parts project_name project) = None) as Hunder.
  { intros name rest.
    change (sub_dir env_parts project_name :: name :: rest)
      with ([sub_dir env_parts project_name] ++ name :: rest).
    rewrite lookup_path_app.
    destruct (lookup_path [sub_dir env_parts project_name] _)
      as [[content|entries]|] eqn:Hlook; [reflexivity| |reflexivity].
    unfold _submit in Hlook.
    rewrite (copytree_prefix_empty _ _ _ _ _ _ Hlook); [reflexivity|].
    unfold startswith. simpl. apply prefix_refl. }
  split; [exact Hunder|].
  intros Hne. unfold path_out.
  destruct env_parts as [|p ps]; [contradiction|].
  change (sub_dir (p :: ps) project_name) with p in Hunder.
  destruct ps as [|q qs]; cbn [app]; apply Hunder.
Qed.

Lemma environment_folder_content_not_copied_witness :
  lookup_path (path_out ["airflow"] "proj")
    (_submit ["airflow"] "proj" Sample.project) = None.
Proof.
  apply (environment_folder_content_not_copied ["airflow"] "proj"
           Sample.project).
  discriminate.
Defined.

(** ** More on [_dag_to_airflow] *)

Lemma with_sets_twice op U1 D1 U2 D2 :
  with_sets (with_sets op U1 D1) U2 D2 = with_sets op (U2 ∪ U1) (D2 ∪ D1).
Proof.
  unfold with_sets. simpl. f_equal; apply (assoc_L (∪)).
Qed.

Lemma with_sets_empty op : with_sets op ∅ ∅ = op.
Proof.
  destruct op as [tid cmd ups downs]. unfold with_sets. simpl.
  f_equal; apply (left_id_L ∅ (∪)).
Qed.

Lemma set_upstream_dict d task up :
  task_dict (set_upstream d task up) =
  map (fun kv : string * Operator =>
         (kv.1, with_sets kv.2
                  (if String.eqb task kv.1 then {[up]} else ∅)
                  (if String.eqb up kv.1 then {[task]} else ∅)))
      (task_dict d).
Proof.
  unfold set_upstream, alter_task. cbn [task_dict].
  rewrite map_map. apply map_ext. intros [k op].
  destruct op as [tid cmd ups downs]. cbn [fst snd].
  destruct (String.eqb task k); cbn [fst snd];
    destruct (String.eqb up k); unfold with_sets; cbn;
    f_equal; f_equal;
    first [reflexivity | symmetry; apply (left_id_L ∅ (∪))].
Qed.

Lemma name_in_cons k u rest :
  name_in k (u :: rest) = String.eqb k u || name_in k rest.
Proof. reflexivity. Qed.

Lemma link_upstream_dict task upstream :
  forall d,
    (forall up, In up upstream -> In up (map fst (task_dict d))) ->
    exists d',
      link_upstream task upstream d = Ok d' /\
      dag_id d' = dag_id d /\
      task_dict d' =
        map (fun kv : string * Operator =>
               (kv.1, with_sets kv.2
                        (if String.eqb task kv.1
                         then list_to_set upstream else ∅)
                        (if name_in kv.1 upstream then {[task]} else ∅)))
            (task_dict d).
Proof.
  induction upstream as [|up rest IH]; intros d Hin.
  - exists d. split; [reflexivity|]. split; [reflexivity|].
    rewrite <- (map_id (task_dict d)) at 1. apply map_ext.
    intros [k op]. cbn [fst snd name_in existsb].
    destruct (String.eqb task k); cbn [list_to_set foldr];
      rewrite with_sets_empty; reflexivity.
  - cbn [link_upstream]. destruct (get_task_ok d up) as [op ->];
      [apply Hin; left; reflexivity|]. cbn [mbind result_bind].
    destruct (IH (set_upstream d task up)) as (d' & Hd' & Hid & Hdict).
    { intros u Hu. rewrite set_upstream_keys. apply Hin. right. exact Hu. }
    exists d'. split; [exact Hd'|]. split; [rewrite Hid; reflexivity|].
    rewrite Hdict, set_upstream_dict, map_map. apply map_ext.
    intros [k o]. cbn [fst snd]. rewrite with_sets_twice, name_in_cons.
    f_equal. rewrite (String.eqb_sym k up).
    destruct (String.eqb task k), (String.eqb up k), (name_in k rest);
      cbn [orb list_to_set foldr]; f_equal; set_solver.
Qed.

Lemma link_tasks_dict items :
  forall d,
    (forall name upstream, In (name, upstream) items ->
        In name (map fst (task_dict d)) /\
        forall up, In up upstream -> In up (map fst (task_dict d))) ->
    exists d',
      link_tasks items d = Ok d' /\
      dag_id d' = dag_id d /\
      task_dict d' =
        map (fun kv : string * Operator =>
               (kv.1, with_sets kv.2 (links items kv.1)
                        (dependents items kv.1)))
            (task_dict d).
Proof.
  induction items as [|[name upstream] rest IH]; intros d Hin.
  - exists d. split; [reflexivity|]. split; [reflexivity|].
    rewrite <- (map_id (task_dict d)) at 1. apply map_ext.
    intros [k op]. cbn [fst snd links dependents].
    rewrite with_sets_empty. reflexivity.
  - cbn [link_tasks]. destruct (Hin name upstream) as [Hname Hups];
      [left; reflexivity|].
    destruct (get_task_ok d name Hname) as [op ->]. cbn [mbind result_bind].
    destruct (link_upstream_dict name upstream d Hups)
      as (d1 & -> & Hid1 & Hdict1). cbn [mbind result_bind].
    destruct (IH d1) as (d' & Hd' & Hid & Hdict).
    { intros n ups Hn. rewrite Hdict1, map_map. cbn [fst].
      apply (Hin n ups). right. exact Hn. }
    exists d'. split; [exact Hd'|]. split; [congruence|].
    rewrite Hdict, Hdict1, map_map. apply map_ext.
    intros [k o]. cbn [fst snd links dependents].
    rewrite with_sets_twice. f_equal.
    destruct (String.eqb name k), (name_in k upstream); f_equal; set_solver.
Qed.

Lemma nodup_fst_functional {A} (l : list (string * A)) k (a b : A) :
  NoDup (map fst l) -> In (k, a) l -> In (k, b) l -> a = b.
Proof.
  induction l as [|[n x] l IH]; intros Hnd Ha Hb; [destruct Ha|].
  simpl in Hnd. apply NoDup_cons in Hnd as [Hn Hnd].
  assert (forall y, In (n, y) l -> False) as Hfresh.
  { intros y Hy. apply Hn, list_elem_of_In, in_map_iff.
    exists (n, y). auto. }
  destruct Ha as [Ha|Ha], Hb as [Hb|Hb].
  - congruence.
  - injection Ha as -> ->. exfalso. eapply Hfresh, Hb.
  - injection Hb as -> ->. exfalso. eapply Hfresh, Ha.
  - apply IH; assumption.
Qed.

Lemma elem_of_dependents items k name :
  name ∈ dependents items k <->
  exists upstream, In (name, upstream) items /\ In k upstream.
Proof.
  induction items as [|[n ups] rest IH]; cbn [dependents].
  - split; [set_solver | intros (? & [] & _)].
  - rewrite elem_of_union, IH. split.
    + intros [Hhere|(upstream & Hin & Hk)].
      * destruct (name_in k ups) eqn:Hk; [|set_solver].
        apply elem_of_singleton in Hhere. subst n.
        exists ups. split; [left; reflexivity | apply name_in_spec, Hk].
      * exists upstream. split; [right; exact Hin | exact Hk].
    + intros (upstream & [[= -> ->]|Hin] & Hk).
      * left. apply name_in_spec in Hk. rewrite Hk. set_solver.
      * right. exists upstream. auto.
Qed.

(** The DAG that [_dag_to_airflow] returns, task by task. *)
Lemma dag_to_airflow_dict generate_script dag_refused operator_refused
    script dag dag_name :
  NoDup (map fst dag) ->
  (forall name upstream up,
      In (name, upstream) dag -> In up upstream -> In up (map fst dag)) ->
  dag_refused dag_name = None ->
  (forall name, In name (map fst dag) -> operator_refused name = None) ->
  (forall name, In name (map fst dag) ->
     generate_script ("ploomber task " +:+ name) = Ok (script name)) ->
  exists d,
    _dag_to_airflow generate_script dag_refused operator_refused dag
      dag_name = Ok d /\
    dag_id d = dag_name /\
    task_dict d =
      map (fun item : string * list string =>
             (item.1,
              {| task_id := item.1;
                 bash_command := script item.1;
                 upstream_task_ids := list_to_set item.2;
                 downstream_task_ids := dependents dag item.1 |}))
          dag.
Proof.
  intros Hnd Hclosed Hdag Hok Hscript. unfold _dag_to_airflow, DAG.
  rewrite Hdag. cbn [mbind result_bind].
  destruct (add_tasks_spec generate_script operator_refused script
              (map fst dag) Hscript Hok
              {| dag_id := dag_name; task_dict := [] |})
    as (d1 & -> & Hid1 & Hdict1); [exact Hnd|].
  cbn [task_dict dag_id app] in Hdict1, Hid1. cbn [mbind result_bind].
  assert (map fst (task_dict d1) = map fst dag) as Hkeys1.
  { rewrite Hdict1, !map_map. reflexivity. }
  destruct (link_tasks_dict dag d1) as (d & Hd & Hid & Hdict).
  { intros name upstream Hin. rewrite Hkeys1. split.
    - apply in_map_iff. exists (name, upstream). auto.
    - intros up Hup. eapply Hclosed; eassumption. }
  exists d. split; [exact Hd|]. split; [congruence|].
  rewrite Hdict, Hdict1, !map_map. apply map_ext_in.
  intros [name upstream] Hin. cbn [fst snd].
  unfold with_sets, new_operator. cbn.
  rewrite (links_present dag name upstream Hnd Hin).
  f_equal. f_equal; apply (right_id_L ∅ (∪)).
Qed.

(** What a run of [add_tasks] that returns tells about its tasks. *)
Lemma add_tasks_returned generate_script operator_refused names :
  forall d d',
    add_tasks generate_script operator_refused names d = Ok d' ->
    forall name, In name names ->
      operator_refused name = None /\
      exists cmd, generate_script ("ploomber task " +:+ name) = Ok cmd.
Proof.
  induction names as [|task_name rest IH]; intros d d' Hrun name Hin;
    [destruct Hin|].
  cbn [add_tasks] in Hrun.
  destruct (generate_script ("ploomber task " +:+ task_name))
    as [cmd|e] eqn:Hcmd; [|discriminate Hrun].
  cbn [mbind result_bind] in Hrun. unfold BashOperator in Hrun.
  destruct (operator_refused task_name) eqn:Htask; [discriminate Hrun|].
  destruct (has_task d task_name); [discriminate Hrun|].
  cbn [mbind result_bind] in Hrun.
  destruct Hin as [<-|Hin].
  - split; [exact Htask | exists cmd; exact Hcmd].
  - eapply IH; eassumption.
Qed.

(** What a run of [_dag_to_airflow] that returns tells about its input. *)
Lemma dag_returned generate_script dag_refused operator_refused dag dag_name
    d :
  _dag_to_airflow generate_script dag_refused operator_refused dag dag_name
    = Ok d ->
  exists script,
    dag_refused dag_name = None /\
    (forall name, In name (map fst dag) -> operator_refused name = None) /\
    (forall name, In name (map fst dag) ->
       generate_script ("ploomber task " +:+ name) = Ok (script name)).
Proof.
  unfold _dag_to_airflow, DAG. intros Hrun.
  exists (fun name =>
            match generate_script ("ploomber task " +:+ name) with
            | Ok cmd => cmd
            | Raise _ => ""
            end).
  destruct (dag_refused dag_name); [discriminate Hrun|].
  cbn [mbind result_bind] in Hrun.
  destruct (add_tasks generate_script operator_refused (map fst dag) _)
    as [d1|e] eqn:Hadd; [|discriminate Hrun].
  split; [reflexivity|]. split.
  - intros name Hin.
    apply (add_tasks_returned _ _ _ _ _ Hadd name Hin).
  - intros name Hin.
    destruct (add_tasks_returned _ _ _ _ _ Hadd name Hin) as [_ [cmd ->]].
    reflexivity.
Qed.

(** X18. For a DAG whose tasks have distinct names and whose upstream names
    are tasks of the DAG, when Airflow accepts [dag_name] as a DAG id and
    every task name as a task id and a script is generated for every task,
    the Airflow DAG returned bears the name given and has, for each task and
    in the same order, an operator with the task's name as its id, the script
    generated for [ploomber task <name>] as its command, the task's upstream
    names as its upstream set and the tasks that name it as upstream as its
    downstream set. *)
Theorem declared_tasks_in_full
    (generate_script : string -> result string)
    (dag_refused operator_refused : string -> option exn)
    (script : string -> string)
    (dag : list (string * list string)) (dag_name : string) :
  NoDup (map fst dag) ->
  (forall name upstream up,
      In (name, upstream) dag -> In up upstream -> In up (map fst dag)) ->
  dag_refused dag_name = None ->
  (forall name, In name (map fst dag) -> operator_refused name = None) ->
  (forall name, In name (map fst dag) ->
     generate_script ("ploomber task " +:+ name) = Ok (script name)) ->
  exists d,
    _dag_to_airflow generate_script dag_refused operator_refused dag
      dag_name = Ok d /\
    dag_id d = dag_name /\
    Forall2
      (fun (item : string * list string) (kv : string * Operator) =>
         kv.1 = item.1 /\
         task_id kv.2 = item.1 /\
         generate_script ("ploomber task " +:+ item.1)
           = Ok (bash_command kv.2) /\
         (forall up, up ∈ upstream_task_ids kv.2 <-> In up item.2) /\
         (forall down, down ∈ downstream_task_ids kv.2 <->
                       exists upstream,
                         In (down, upstream) dag /\ In item.1 upstream))
      dag (task_dict d).
Proof.
  intros Hnd Hclosed Hdag Hok Hscript.
  destruct (dag_to_airflow_dict generate_script dag_refused operator_refused
              script dag dag_name Hnd Hclosed Hdag Hok Hscript)
    as (d & Hd & Hid & Hdict).
  exists d. split; [exact Hd|]. split; [exact Hid|].
  rewrite Hdict. apply Forall2_fmap_r, Forall_Forall2_diag, Forall_forall.
  intros [name upstream] Hin%list_elem_of_In. cbn.
  repeat split; try reflexivity.
  - apply Hscript, in_map_iff. exists (name, upstream). auto.
  - intros Hup. apply elem_of_list_to_set, list_elem_of_In in Hup. exact Hup.
  - intros Hup. apply elem_of_list_to_set, list_elem_of_In. exact Hup.
  - apply elem_of_dependents.
  - apply elem_of_dependents.
Qed.

Lemma declared_tasks_in_full_witness :
  exists d,
    _dag_to_airflow (fun command => Ok command) Sample.key_refused
      Sample.key_refused Sample.abc "proj" = Ok d /\
    dag_id d = "proj" /\
    Forall2
      (fun (item : string * list string) (kv : string * Operator) =>
         kv.1 = item.1 /\
         task_id kv.2 = item.1 /\
         Ok ("ploomber task " +:+ item.1) = Ok (bash_command kv.2) /\
         (forall up, up ∈ upstream_task_ids kv.2 <-> In up item.2) /\
         (forall down, down ∈ downstream_task_ids kv.2 <->
                       exists upstream,
                         In (down, upstream) Sample.abc /\
                         In item.1 upstream))
      Sample.abc (task_dict d).
Proof.
  apply (declared_tasks_in_full (fun command => Ok command)
           Sample.key_refused Sample.key_refused
           (fun name => "ploomber task " +:+ name) Sample.abc "proj"
           abc_nodup abc_closed).
  - reflexivity.
  - exact abc_keys_taken.
  - intros name _. reflexivity.
Defined.

(** X19. When [_dag_to_airflow] returns an Airflow DAG, for a DAG whose
    tasks have distinct names and whose upstream names are tasks of the DAG,
    the two sets of its operators agree: [up] is in the upstream set of
    [task] exactly when [task] is in the downstream set of [up]. *)
Theorem downstream_mirrors_upstream
    (generate_script : string -> result string)
    (dag_refused operator_refused : string -> option exn)
    (dag : list (string * list string)) (dag_name : string)
    (d : AirflowDAG) :
  NoDup (map fst dag) ->
  (forall name upstream up,
      In (name, upstream) dag -> In up upstream -> In up (map fst dag)) ->
  _dag_to_airflow generate_script dag_refused operator_refused dag dag_name
    = Ok d ->
  forall task up op_task op_up,
    In (task, op_task) (task_dict d) ->
    In (up, op_up) (task_dict d) ->
    (up ∈ upstream_task_ids op_task <-> task ∈ downstream_task_ids op_up).
Proof.
  intros Hnd Hclosed Hrun.
  destruct (dag_returned generate_script dag_refused operator_refused dag
              dag_name d Hrun) as (script & Hdag & Hok & Hscript).
  destruct (dag_to_airflow_dict generate_script dag_refused operator_refused
              script dag dag_name Hnd Hclosed Hdag Hok Hscript)
    as (d' & Hd' & _ & Hdict).
  rewrite Hrun in Hd'. injection Hd' as <-.
  intros task up op_task op_up Htask Hup. rewrite Hdict in Htask, Hup.
  apply in_map_iff in Htask as ([t ups_t] & [= <- <-] & Htask).
  apply in_map_iff in Hup as ([u ups_u] & [= <- <-] & Hup).
  cbn. rewrite elem_of_list_to_set, list_elem_of_In, elem_of_dependents.
  split.
  - intros Hin. exists ups_t. auto.
  - intros (upstream & Hin & Hu).
    rewrite (nodup_fst_functional dag t ups_t upstream Hnd Htask Hin).
    exact Hu.
Qed.

Lemma downstream_mirrors_upstream_witness :
  _dag_to_airflow (fun command => Ok command) Sample.key_refused
    Sample.key_refused Sample.abc "proj" = Ok Sample.declared_abc /\
  forall task up op_task op_up,
    In (task, op_task) (task_dict Sample.declared_abc) ->
    In (up, op_up) (task_dict Sample.declared_abc) ->
    (up ∈ upstream_task_ids op_task <-> task ∈ downstream_task_ids op_up).
Proof.
  split; [vm_compute; reflexivity|].
  apply (downstream_mirrors_upstream (fun command => Ok command)
           Sample.key_refused Sample.key_refused Sample.abc "proj"
           Sample.declared_abc abc_nodup abc_closed).
  vm_compute. reflexivity.
Defined.

(** * Properties of the helpers that read the output of [docker build] *)

Import DockerOutput.

Lemma prefix_nil_l (s : string) : String.prefix "" s = true.
Proof. destruct s; reflexivity. Qed.

Lemma prefix_append_l (n x y : string) :
  String.prefix n x = true -> String.prefix n (x +:+ y) = true.
Proof.
  revert x. induction n as [|c n IH]; intros x H; [apply prefix_nil_l|].
  destruct x as [|d x]; [discriminate H|].
  rewrite append_cons. simpl in *.
  destruct (ascii_dec c d); [apply IH, H | discriminate H].
Qed.

Lemma contains_cons (c : ascii) (r needle : string) :
  contains (String c r) needle =
  if String.prefix needle (String c r) then true else contains r needle.
Proof. reflexivity. Qed.

Lemma contains_append_l (x y needle : string) :
  contains x needle = true -> contains (x +:+ y) needle = true.
Proof.
  induction x as [|c x IH]; intros H.
  - destruct needle as [|d needle]; [|discriminate H].
    apply (contains_here "" y).
  - rewrite append_cons, contains_cons. rewrite contains_cons in H.
    destruct (String.prefix needle (String c x)) eqn:Hp.
    + apply (prefix_append_l _ _ y) in Hp. rewrite append_cons in Hp.
      rewrite Hp. reflexivity.
    + rewrite (IH H).
      match goal with |- (if ?b then _ else _) = _ => destruct b end;
        reflexivity.
Qed.

(** A joined list that is not empty has what its first item has. *)
Lemma contains_join_head (sep x needle : string) (l : list string) :
  contains x needle = true -> contains (join sep (x :: l)) needle = true.
Proof.
  intros H. destruct l as [|y l]; [exact H|].
  change (join sep (x :: y :: l)) with (x +:+ sep +:+ join sep (y :: l)).
  apply contains_append_l, H.
Qed.

Section indices.

Variable test : string -> bool.

Lemma indices_from_cons k x lines :
  indices_from test k (x :: lines) =
  if test x then k :: indices_from test (S k) lines
  else indices_from test (S k) lines.
Proof. unfold indices_from. simpl. destruct (test x); reflexivity. Qed.

Lemma indices_from_length k lines :
  length (indices_from test k lines) = length (List.filter test lines).
Proof.
  revert k. induction lines as [|x lines IH]; intros k; [reflexivity|].
  rewrite indices_from_cons. simpl. destruct (test x); simpl; rewrite IH;
    reflexivity.
Qed.

Lemma indices_from_spec k lines i :
  In i (indices_from test k lines) ->
  k <= i /\ exists line, lines !! (i - k) = Some line /\ test line = true.
Proof.
  revert k. induction lines as [|x lines IH]; intros k; [intros []|].
  rewrite indices_from_cons.
  assert (In i (indices_from test (S k) lines) ->
          k <= i /\ exists line,
            (x :: lines) !! (i - k) = Some line /\ test line = true) as Hrest.
  { intros Hin. apply IH in Hin as (Hle & line & Hline & Htest).
    split; [lia|]. exists line. split; [|exact Htest].
    replace (i - k) with (S (i - S k)) by lia. exact Hline. }
  destruct (test x) eqn:Hx; [|exact Hrest].
  intros [<-|Hin]; [|exact (Hrest Hin)].
  split; [lia|]. exists x. rewrite Nat.sub_diag. auto.
Qed.

(** The two ends of a slice are indices, the second after the first. *)
Lemma slices_from_spec k lines i j :
  In (i, j) (slices (indices_from test k lines)) ->
  In i (indices_from test k lines) /\
  In j (indices_from test k lines) /\ i < j.
Proof.
  revert k. induction lines as [|x lines IH]; intros k; [intros []|].
  rewrite indices_from_cons.
  assert (In (i, j) (slices (indices_from test (S k) lines)) ->
          In i (indices_from test (S k) lines) /\
          In j (indices_from test (S k) lines) /\ i < j) as Hrest by apply IH.
  destruct (test x); [|exact Hrest].
  unfold slices. cbn [tl].
  destruct (indices_from test (S k) lines) as [|b t] eqn:Hidx; [intros []|].
  cbn [combine]. intros [[= <- <-]|Hin].
  - split; [left; reflexivity|]. split; [right; left; reflexivity|].
    assert (In b (indices_from test (S k) lines)) as Hb
      by (rewrite Hidx; left; reflexivity).
    apply indices_from_spec in Hb as [Hle _]. lia.
  - unfold slices in Hrest. cbn [tl] in Hrest.
    destruct (Hrest Hin) as (Hi & Hj & Hlt).
    split; [right; exact Hi|]. split; [right; exact Hj | exact Hlt].
Qed.

Lemma slices_length (idx : list nat) :
  length (slices idx) = length idx - 1.
Proof.
  unfold slices. rewrite length_combine.
  destruct idx as [|a t]; cbn [tl length]; lia.
Qed.

End indices.

Lemma indices_unfold test lines :
  indices test lines = indices_from test 0 lines.
Proof. reflexivity. Qed.

Lemma slice_at (lines : list string) (i j : nat) (line : string) :
  lines !! i = Some line -> i < j ->
  exists rest, slice lines i j = line :: rest.
Proof.
  intros Hline Hlt. unfold slice. rewrite (drop_S _ _ _ Hline).
  destruct (j - i) as [|n] eqn:Hn; [lia|]. simpl. eauto.
Qed.

Lemma last_none_nil {A} (l : list A) : last l = None <-> l = [].
Proof.
  split; [|intros ->; reflexivity].
  destruct l as [|x l]; [reflexivity|].
  intros H. exfalso. revert x H.
  induction l as [|y l IH]; intros x H; [discriminate H|].
  apply (IH y). exact H.
Qed.

Lemma last_in {A} (l : list A) (x : A) : last l = Some x -> In x l.
Proof.
  induction l as [|y l IH]; [discriminate|].
  destruct l as [|z l]; [intros [= ->]; left; reflexivity|].
  intros H. right. apply IH, H.
Qed.

(** The repository's own test of [_process_docker_output_ci]. *)
Example test_process_docker_output_ci :
  _process_docker_output_ci Sample.ci_output
  = Returned
      ["Step 1/7 : FROM A";
       "Step 2/7 : COPY B C" +:+ str1 newline +:+ " ---> Using cache";
       "Step 3/7 : RUN D" +:+ str1 newline +:+ " ---> Using cache" +:+
       str1 newline +:+ " ---> hash"].
Proof. vm_compute. reflexivity. Qed.

(** [_process_docker_output] on an output whose parts are set apart by
    empty lines: the part before the first empty line and the part after
    the last one are left out. *)
Example process_local_output :
  _process_docker_output Sample.local_output
  = [str1 newline +:+ "#2 COPY" +:+ str1 newline +:+ "#2 CACHED";
     str1 newline +:+ "#3 RUN"].
Proof. vm_compute. reflexivity. Qed.

(** X20. [_process_docker_output_ci] fails with [UnboundLocalError] for
    [j] exactly when fewer than two lines of the output have [Step ] in
    them: line 51 reads the [j] of the loop, and the loop has not run. *)
Theorem ci_needs_two_steps (output : string) :
  _process_docker_output_ci output = UnboundLocalError "j" <->
  length (List.filter has_step (splitlines output)) < 2.
Proof.
  unfold _process_docker_output_ci.
  rewrite <- (indices_from_length has_step 0), <- indices_unfold.
  pose proof (slices_length (indices has_step (splitlines output))) as Hlen.
  destruct (last (slices _)) as [[i j]|] eqn:Hlast.
  - split; [discriminate|]. intros Hlt. exfalso.
    apply last_in in Hlast.
    destruct (slices (indices has_step (splitlines output)));
      [destruct Hlast | simpl in Hlen; lia].
  - split; [|reflexivity]. intros _.
    apply last_none_nil in Hlast. rewrite Hlast in Hlen. simpl in Hlen. lia.
Qed.

Lemma ci_needs_two_steps_witness :
  _process_docker_output_ci ("Step 1/1 : FROM A" +:+ str1 newline +:+
                             " ---> hash")
  = UnboundLocalError "j".
Proof.
  apply (ci_needs_two_steps ("Step 1/1 : FROM A" +:+ str1 newline +:+
                             " ---> hash")).
  vm_compute. lia.
Defined.

(** X21. When [_process_docker_output_ci] returns, it returns one section
    per line that has [Step ] in it; each section is empty or has [Step ] in
    it, and the last one always has. *)
Theorem ci_one_section_per_step (output : string) (sections : list string) :
  _process_docker_output_ci output = Returned sections ->
  length sections = length (List.filter has_step (splitlines output)) /\
  (forall section, In section sections ->
                   section = "" \/ has_step section = true) /\
  exists final_section,
    last sections = Some final_section /\ has_step final_section = true.
Proof.
  unfold _process_docker_output_ci.
  rewrite <- (indices_from_length has_step 0), <- indices_unfold.
  set (lines := splitlines output).
  set (step := indices has_step lines).
  pose proof (slices_length step) as Hlen.
  destruct (last (slices step)) as [[i j]|] eqn:Hlast; [|discriminate].
  intros [= <-].
  assert (forall a b, In (a, b) (slices step) ->
            exists line, lines !! a = Some line /\ has_step line = true /\
                         a < b /\
                         exists line', lines !! b = Some line' /\
                                       has_step line' = true) as Hslices.
  { intros a b Hin. unfold step in Hin. rewrite indices_unfold in Hin.
    apply slices_from_spec in Hin as (Ha & Hb & Hlt).
    apply indices_from_spec in Ha as (_ & la & Hla & Hta).
    apply indices_from_spec in Hb as (_ & lb & Hlb & Htb).
    rewrite Nat.sub_0_r in Hla, Hlb. eauto 10. }
  assert (has_step (join (str1 LF) (drop j lines)) = true) as Hfinal.
  { apply last_in, Hslices in Hlast
      as (_ & _ & _ & _ & line' & Hline' & Hstep).
    rewrite (drop_S _ _ _ Hline'). apply contains_join_head, Hstep. }
  split; [|split].
  - rewrite length_app, length_map, Hlen. simpl.
    apply last_in in Hlast.
    destruct (slices step); [destruct Hlast|]. simpl in Hlen. lia.
  - intros section [Hin|[<-|[]]]%in_app_or; [|right; exact Hfinal].
    apply in_map_iff in Hin as ([a b] & <- & Hin). cbn [fst snd].
    apply Hslices in Hin as (line & Hline & Hstep & Hlt & _).
    unfold slice. rewrite (drop_S _ _ _ Hline).
    destruct (b - 1 - a) as [|n]; [left; reflexivity|].
    right. cbn [take]. apply contains_join_head, Hstep.
  - eexists. split; [apply last_snoc | exact Hfinal].
Qed.

Lemma ci_one_section_per_step_witness :
  length ["Step 1/7 : FROM A";
          "Step 2/7 : COPY B C" +:+ str1 newline +:+ " ---> Using cache";
          "Step 3/7 : RUN D" +:+ str1 newline +:+ " ---> Using cache" +:+
          str1 newline +:+ " ---> hash"]
  = length (List.filter has_step (splitlines Sample.ci_output)) /\
  (forall section,
      In section
         ["Step 1/7 : FROM A";
          "Step 2/7 : COPY B C" +:+ str1 newline +:+ " ---> Using cache";
          "Step 3/7 : RUN D" +:+ str1 newline +:+ " ---> Using cache" +:+
          str1 newline +:+ " ---> hash"] ->
      section = "" \/ has_step section = true) /\
  exists final_section,
    last ["Step 1/7 : FROM A";
          "Step 2/7 : COPY B C" +:+ str1 newline +:+ " ---> Using cache";
          "Step 3/7 : RUN D" +:+ str1 newline +:+ " ---> Using cache" +:+
          str1 newline +:+ " ---> hash"]
      = Some final_section /\
    has_step final_section = true.
Proof.
  apply (ci_one_section_per_step Sample.ci_output).
  vm_compute. reflexivity.
Defined.

(** X22. [_process_docker_output] never fails; it returns one section fewer
    than there are empty lines (none when there are fewer than two), and
    each section opens with the empty line that starts it: it is empty or
    begins with a line feed. *)
Theorem output_sections_between_empty_lines (output : string) :
  length (_process_docker_output output)
    = length (List.filter is_empty (splitlines output)) - 1 /\
  forall section,
    In section (_process_docker_output output) ->
    section = "" \/ exists rest, section = str1 LF +:+ rest.
Proof.
  unfold _process_docker_output.
  set (lines := splitlines output).
  split.
  - rewrite length_map, slices_length, indices_unfold, indices_from_length.
    reflexivity.
  - intros section Hin.
    apply in_map_iff in Hin as ([a b] & <- & Hin). cbn [fst snd].
    rewrite indices_unfold in Hin.
    apply slices_from_spec in Hin as (Ha & _ & Hlt).
    apply indices_from_spec in Ha as (_ & line & Hline & Hempty).
    rewrite Nat.sub_0_r in Hline.
    unfold is_empty in Hempty. apply String.eqb_eq in Hempty. subst line.
    destruct (slice_at lines a b "" Hline Hlt) as [rest ->].
    destruct rest as [|x rest]; [left; reflexivity|].
    right. eexists. reflexivity.
Qed.

Lemma output_sections_between_empty_lines_witness :
  length (_process_docker_output Sample.local_output) = 2 /\
  forall section,
    In section (_process_docker_output Sample.local_output) ->
    section = "" \/ exists rest, section = str1 LF +:+ rest.
Proof.
  exact (output_sections_between_empty_lines Sample.local_output).
Defined.
